(** * ClickUp task service: custom fields module, service facade, entry point

    A shallow embedding of [task-custom-fields.ts], of the [TaskService]
    facade and of the program entry point [main], together with the
    properties their specification states about them.

    Asynchronous methods are functions in a state-and-exception monad
    [Async W]: a computation takes the state of the outside world (the
    ClickUp workspace, the requests issued so far, the operation log) and
    gives back either the value its promise is fulfilled with or the value
    it is rejected with, and the new state of the world. *)

From stdpp Require Import base option list strings gmap.
From Stdlib Require Import Ascii ZArith.

Set Warnings "-register-all".
Unset Elimination Schemes.

(** ** JavaScript values and objects *)

(** The untyped payloads ([value: any]) that travel through this layer. *)
Inductive JsValue : Type :=
| JUndefined
| JNull
| JBool (b : bool)
| JNumber (n : Z)
| JString (s : string)
| JArray (items : list JsValue)
| JObject (props : list (string * JsValue))
| JNative (name : string).

(** A [Record<string, any>] is a plain object: its own properties are a
    finite map, and it inherits the properties of [Object.prototype]. *)
Definition Object_prototype_keys : list string :=
  [ "constructor"; "__defineGetter__"; "__defineSetter__"; "hasOwnProperty";
    "__lookupGetter__"; "__lookupSetter__"; "isPrototypeOf";
    "propertyIsEnumerable"; "toString"; "valueOf"; "__proto__";
    "toLocaleString" ].

Definition inherited (key : string) : bool :=
  bool_decide (key ∈ Object_prototype_keys).

(** [key in obj]: true for own and for inherited properties. *)
Definition js_in (key : string) (obj : gmap string JsValue) : bool :=
  match obj !! key with
  | Some _ => true
  | None => inherited key
  end.

(** [obj[key]]: the own property, else the inherited one, else [undefined]. *)
Definition js_get (obj : gmap string JsValue) (key : string) : JsValue :=
  match obj !! key with
  | Some v => v
  | None =>
      if inherited key then JNative ("Object.prototype." +:+ key)
      else JUndefined
  end.

(** The double quote character, and a string between double quotes. *)
Definition dquote : string := String (Ascii.ascii_of_nat 34) EmptyString.

Definition quoted (s : string) : string := dquote +:+ s +:+ dquote.

(** [hay.includes(needle)] *)
Fixpoint includes (needle hay : string) : bool :=
  String.prefix needle hay ||
  match hay with
  | EmptyString => false
  | String _ rest => includes needle rest
  end.

Set Elimination Schemes.

(** ** Domain types *)

(** [CustomFieldValue]: a pair of a field ID and a value. *)
Record CustomFieldValue : Type := {
  id : string;
  value : JsValue;
}.

(** The attributes of a [ClickUpTask] this layer reads. *)
Record ClickUpTask : Type := {
  task_id : string;
  task_name : string;
  custom_fields : option (gmap string JsValue);
}.

(** [lhs || {}] on an optional record. *)
Definition or_empty (lhs : option (gmap string JsValue)) : gmap string JsValue :=
  match lhs with
  | Some obj => obj
  | None => ∅
  end.

(** ** Thrown values *)

Inductive Thrown : Type :=
| JsError (message : string)
| HttpError (status : Z) (body : string)
| NotFoundError (message : string)
| AmbiguousError (candidates : list ClickUpTask)
| ValidationError (message : string)
| Described (message : string) (cause : Thrown).

(** The messages an error carries, outermost first. *)
Fixpoint messages (e : Thrown) : list string :=
  match e with
  | JsError m => [m]
  | HttpError _ body => [body]
  | NotFoundError m => [m]
  | AmbiguousError _ => []
  | ValidationError m => [m]
  | Described m cause => m :: messages cause
  end.

(** An error names a field when one of its messages quotes the field ID. *)
Definition names_field (fieldId : string) (e : Thrown) : bool :=
  existsb (includes (quoted fieldId)) (messages e).

(** ** Asynchronous computations *)

Definition Outcome (A : Type) : Type := (Thrown + A)%type.

Definition Async (W A : Type) : Type := W → Outcome A * W.

Definition resolve {W A} (a : A) : Async W A := λ w, (inr a, w).

Definition throw {W A} (e : Thrown) : Async W A := λ w, (inl e, w).

Definition await {W A B} (m : Async W A) (k : A → Async W B) : Async W B :=
  λ w, match m w with
       | (inr a, w') => k a w'
       | (inl e, w') => (inl e, w')
       end.

Definition try_catch {W A} (body : Async W A) (handler : Thrown → Async W A)
  : Async W A :=
  λ w, match body w with
       | (inr a, w') => (inr a, w')
       | (inl e, w') => handler e w'
       end.

(** A synchronous call that only changes the world. *)
Definition effect {W} (f : W → W) : Async W unit := λ w, (inr tt, f w).

#[global] Instance Async_ret {W} : MRet (Async W) := λ A, @resolve W A.
#[global] Instance Async_bind {W} : MBind (Async W) :=
  λ A B k m, @await W A B m k.

(** [for (const x of xs) { await body(x); }] *)
Fixpoint for_of {W A} (xs : list A) (body : A → Async W unit) : Async W unit :=
  match xs with
  | [] => resolve tt
  | x :: rest => body x ;; for_of rest body
  end.

(** ** Task core

    The capability object every feature module receives. *)
Record TaskServiceCore (W : Type) : Type := {
  logOperation : string → JsValue → W → W;
  makeRequest : ∀ A : Type, Async W A → Async W A;
  client_post : string → JsValue → Async W JsValue;
  handleError : Thrown → string → Thrown;
  getTask : string → Async W ClickUpTask;
}.

Arguments logOperation {W}.
Arguments makeRequest {W} _ {A}.
Arguments client_post {W}.
Arguments handleError {W}.
Arguments getTask {W}.

(** ** Custom fields module *)

Record TaskServiceCustomFields (W : Type) : Type := {
  core : TaskServiceCore W;
}.

Arguments core {W}.

Module CustomFields.
Section Methods.
Context {W : Type}.
Variable this : TaskServiceCustomFields W.

Definition field_url (taskId fieldId : string) : string :=
  "/task/" +:+ taskId +:+ "/field/" +:+ fieldId.

Definition set_failed (fieldId : string) : string :=
  "Failed to set custom field " +:+ quoted fieldId +:+ " value".

Definition get_failed (fieldId : string) : string :=
  "Failed to get custom field " +:+ quoted fieldId +:+ " value".

Definition not_found (fieldId : string) : string :=
  "Custom field " +:+ quoted fieldId +:+ " not found on task".

Definition field_object (field : CustomFieldValue) : JsValue :=
  JObject [("id", JString (id field)); ("value", value field)].

Definition setCustomFieldValue (taskId fieldId : string) (value : JsValue)
  : Async W bool :=
  effect (logOperation (core this) "setCustomFieldValue"
            (JObject [("taskId", JString taskId);
                      ("fieldId", JString fieldId);
                      ("value", value)])) ;;
  try_catch
    (let payload := JObject [("value", value)] in
     makeRequest (core this)
       (client_post (core this) (field_url taskId fieldId) payload) ;;
     mret true)
    (λ error,
       throw (handleError (core this) error (set_failed fieldId))).

Definition setCustomFieldValues (taskId : string)
    (customFields : list CustomFieldValue) : Async W bool :=
  effect (logOperation (core this) "setCustomFieldValues"
            (JObject [("taskId", JString taskId);
                      ("customFields",
                       JArray (field_object <$> customFields))])) ;;
  try_catch
    (for_of customFields
       (λ field,
          setCustomFieldValue taskId (id field) (value field) ;; mret tt) ;;
     mret true)
    (λ error,
       throw (handleError (core this) error
                "Failed to set custom field values")).

Definition getCustomFieldValues (taskId : string)
  : Async W (gmap string JsValue) :=
  effect (logOperation (core this) "getCustomFieldValues"
            (JObject [("taskId", JString taskId)])) ;;
  try_catch
    (task ← getTask (core this) taskId;
     mret (or_empty (custom_fields task)))
    (λ error,
       throw (handleError (core this) error
                "Failed to get custom field values")).

Definition getCustomFieldValue (taskId fieldId : string) : Async W JsValue :=
  effect (logOperation (core this) "getCustomFieldValue"
            (JObject [("taskId", JString taskId);
                      ("fieldId", JString fieldId)])) ;;
  try_catch
    (customFields ← getCustomFieldValues taskId;
     if js_in fieldId customFields then
       mret (js_get customFields fieldId)
     else
       throw (handleError (core this)
                (JsError (not_found fieldId)) (not_found fieldId)))
    (λ error,
       throw (handleError (core this) error (get_failed fieldId))).

End Methods.
End CustomFields.

(** ** The outside world

    ClickUp itself is an external collaborator: all that is known of it is
    that a request either fails (the adapter throws) or answers, and that it
    may change the workspace. *)

Inductive ListScope : Type :=
| ListById (listId : string)
| ListByName (listName : string).

Inductive Request : Type :=
| HttpPost (url : string) (body : JsValue)
| GetTaskById (taskId : string)
| GetTaskByCustomId (customTaskId : string)
| ListTasks (scope : ListScope)
| WorkspaceTasks
| TaskDetails (taskId : string) (fullDetails listContext : bool)
| UpdateTask (taskId : string) (data : JsValue).

Class ClickUp (Server : Type) : Type := {
  post : string → JsValue → Server → Outcome JsValue * Server;
  get_task : string → Server → Outcome ClickUpTask * Server;
  get_task_by_custom_id : string → Server → Outcome ClickUpTask * Server;
  list_tasks : ListScope → Server → Outcome (list ClickUpTask) * Server;
  workspace_tasks : Server → Outcome (list ClickUpTask) * Server;
  task_details :
    bool → bool → ClickUpTask → Server → Outcome ClickUpTask * Server;
  update_task : string → JsValue → Server → Outcome ClickUpTask * Server;
}.

(** What a run can observe: the workspace, the requests issued so far in
    the order they were issued, and the operation log. *)
Record World (Server : Type) : Type := {
  server : Server;
  requests : list Request;
  oplog : list (string * JsValue);
}.

Arguments server {Server}.
Arguments requests {Server}.
Arguments oplog {Server}.

Module Core.
Section Core.
Context {Server : Type} `{ClickUp Server}.

(** Modelled from the spec: the HTTP client adapter of base.js is missing.
    It issues the request and returns the parsed answer, or throws; here it
    also records the request it issued. *)
Definition adapter {A} (request : Request)
    (endpoint : Server → Outcome A * Server) : Async (World Server) A :=
  λ w, let '(answer, s) := endpoint (server w) in
       (answer, {| server := s;
                   requests := requests w ++ [request];
                   oplog := oplog w |}).

(** Modelled from the spec: [logOperation] of task-core.js is missing.
    Logging records the inputs of an operation before it runs and does not
    affect control flow. *)
Definition log (operation : string) (data : JsValue)
    (w : World Server) : World Server :=
  {| server := server w;
     requests := requests w;
     oplog := oplog w ++ [(operation, data)] |}.

(** Modelled from the spec: [makeRequest], [handleError] and [getTask] of
    task-core.js are missing. A request is run once and is never retried;
    a failure is wrapped in a descriptive message; [getTask] is one
    get-by-id call. *)
Definition spec_core : TaskServiceCore (World Server) := {|
  logOperation := log;
  makeRequest := λ A fn, fn;
  client_post := λ url body, adapter (HttpPost url body) (post url body);
  handleError := λ error message, Described message error;
  getTask := λ taskId, adapter (GetTaskById taskId) (get_task taskId);
|}.

Definition spec_fields : TaskServiceCustomFields (World Server) :=
  {| core := spec_core |}.

End Core.
End Core.

(** ** Search module

    task-search.js is missing; the facade only delegates to it. *)

(** Modelled from the spec: types.js is missing. The records it declares
    for filters, update payloads and the answers of the comment, tag and
    attachment endpoints are opaque to this layer and travel as JSON. *)
Definition ExtendedTaskFilters : Type := JsValue.
Definition UpdateTaskData : Type := JsValue.
Definition DetailedTaskResponse : Type := JsValue.
Definition WorkspaceTasksResponse : Type := JsValue.
Definition ClickUpComment : Type := JsValue.
Definition ClickUpTag : Type := JsValue.
Definition ClickUpTaskAttachment : Type := JsValue.
Definition Buffer : Type := list Byte.byte.

(** The parameter object of [findTasks]; every property is optional. *)
Record FindTasksParams : Type := {
  taskId : option string;
  customTaskId : option string;
  taskName : option string;
  listId : option string;
  listName : option string;
  allowMultipleMatches : option bool;
  useSmartDisambiguation : option bool;
  includeFullDetails : option bool;
  includeListContext : option bool;
  requireExactMatch : option bool;
}.

(** [ClickUpTask | ClickUpTask[] | null] *)
Inductive FindResult : Type :=
| OneTask (task : ClickUpTask)
| ManyTasks (tasks : list ClickUpTask)
| NoTask.

Record TaskServiceSearch (W : Type) : Type := {
  search_findTaskByName : string → string → Async W (option ClickUpTask);
  search_getWorkspaceTasks :
    ExtendedTaskFilters → Async W (DetailedTaskResponse + WorkspaceTasksResponse);
  search_getTaskSummaries : ExtendedTaskFilters → Async W WorkspaceTasksResponse;
  search_getListViews : string → Async W (option string);
  search_getTasksFromView :
    string → ExtendedTaskFilters → Async W (list ClickUpTask);
  search_getTaskDetails : ExtendedTaskFilters → Async W DetailedTaskResponse;
  search_updateTaskByName :
    string → string → UpdateTaskData → Async W ClickUpTask;
  search_findTaskByNameGlobally : string → Async W (option ClickUpTask);
  search_findTasks : FindTasksParams → Async W FindResult;
}.

Arguments search_findTaskByName {W}.
Arguments search_getWorkspaceTasks {W}.
Arguments search_getTaskSummaries {W}.
Arguments search_getListViews {W}.
Arguments search_getTasksFromView {W}.
Arguments search_getTaskDetails {W}.
Arguments search_updateTaskByName {W}.
Arguments search_findTaskByNameGlobally {W}.
Arguments search_findTasks {W}.

(** A flag that is not given counts as not set. *)
Definition flag (given : option bool) : bool :=
  match given with
  | Some b => b
  | None => false
  end.

Definition to_lower_ascii (c : Ascii.ascii) : Ascii.ascii :=
  let n := Ascii.nat_of_ascii c in
  if (65 <=? n)%nat && (n <=? 90)%nat then Ascii.ascii_of_nat (n + 32) else c.

Fixpoint toLowerCase (s : string) : string :=
  match s with
  | EmptyString => EmptyString
  | String c rest => String (to_lower_ascii c) (toLowerCase rest)
  end.

Definition opt_string (o : option string) : JsValue :=
  match o with
  | Some s => JString s
  | None => JUndefined
  end.

Definition opt_bool (o : option bool) : JsValue :=
  match o with
  | Some b => JBool b
  | None => JUndefined
  end.

Definition params_object (params : FindTasksParams) : JsValue :=
  JObject [("taskId", opt_string (taskId params));
           ("customTaskId", opt_string (customTaskId params));
           ("taskName", opt_string (taskName params));
           ("listId", opt_string (listId params));
           ("listName", opt_string (listName params));
           ("allowMultipleMatches", opt_bool (allowMultipleMatches params));
           ("useSmartDisambiguation", opt_bool (useSmartDisambiguation params));
           ("includeFullDetails", opt_bool (includeFullDetails params));
           ("includeListContext", opt_bool (includeListContext params));
           ("requireExactMatch", opt_bool (requireExactMatch params))].

(** A direct reference to a task: its ID or its custom ID. *)
Inductive TaskRef : Type :=
| ById (taskId : string)
| ByCustomId (customTaskId : string).

Definition ref_request (ref : TaskRef) : Request :=
  match ref with
  | ById i => GetTaskById i
  | ByCustomId c => GetTaskByCustomId c
  end.

Definition lookup_ref {Server} `{ClickUp Server} (ref : TaskRef)
  : Server → Outcome ClickUpTask * Server :=
  match ref with
  | ById i => get_task i
  | ByCustomId c => get_task_by_custom_id c
  end.

Module Search.
Section Search.
Context {Server : Type} `{ClickUp Server}.

(** The tie-break rule of smart disambiguation is left open by the
    specification: it is a parameter, and answers [None] when it is
    inconclusive. *)
Variable tie_break : list ClickUpTask → option ClickUpTask.

(** The search operations the specification does not describe. *)
Variable unspecified : TaskServiceSearch (World Server).

(** Modelled from the spec: an exact match is a task whose name equals the
    name asked for, case included. *)
Definition exact_matches (name : string) (tasks : list ClickUpTask)
  : list ClickUpTask :=
  filter (λ t, task_name t = name) tasks.

(** Modelled from the spec: the fall-back match, the name asked for
    occurring in the name of the task when case is ignored. *)
Definition loose_matches (name : string) (tasks : list ClickUpTask)
  : list ClickUpTask :=
  filter (λ t, includes (toLowerCase name) (toLowerCase (task_name t)) = true)
         tasks.

(** Modelled from the spec: step 2 of the resolution policy, a scan of one
    list for an exact, case-sensitive name match, falling back to
    case-insensitive substring matching unless an exact match is
    required. *)
Definition matches_in_list (scope : ListScope) (name : string)
    (exact_only : bool) : Async (World Server) (list ClickUpTask) :=
  tasks ← Core.adapter (ListTasks scope) (list_tasks scope);
  mret (match exact_matches name tasks with
        | [] => if exact_only then [] else loose_matches name tasks
        | found => found
        end).

(** Modelled from the spec: step 3, a workspace-wide task query filtered
    on the client by name equality. *)
Definition global_matches (name : string)
  : Async (World Server) (list ClickUpTask) :=
  tasks ← Core.adapter WorkspaceTasks workspace_tasks;
  mret (exact_matches name tasks).

(** Modelled from the spec: step 5, the shape of a result. A task is
    returned as it was found unless full details or the list context are
    asked for, which costs one more read. *)
Definition shaped (params : FindTasksParams) (task : ClickUpTask)
  : Async (World Server) ClickUpTask :=
  let full := flag (includeFullDetails params) in
  let context := flag (includeListContext params) in
  if full || context then
    Core.adapter (TaskDetails (task_id task) full context)
                 (task_details full context task)
  else mret task.

(** Modelled from the spec: the shape of a sequence of results, task by
    task in the order of the sequence. *)
Fixpoint shaped_all (params : FindTasksParams) (tasks : list ClickUpTask)
  : Async (World Server) (list ClickUpTask) :=
  match tasks with
  | [] => mret []
  | t :: rest =>
      t' ← shaped params t;
      rest' ← shaped_all params rest;
      mret (t' :: rest')
  end.

(** Modelled from the spec: steps 4 and 5, what is returned for the
    candidates a name search found. *)
Definition select (params : FindTasksParams) (candidates : list ClickUpTask)
  : Async (World Server) FindResult :=
  match candidates with
  | [] => mret NoTask
  | [task] => task' ← shaped params task; mret (OneTask task')
  | _ =>
      if flag (allowMultipleMatches params) then
        tasks ← shaped_all params candidates; mret (ManyTasks tasks)
      else if flag (useSmartDisambiguation params) then
        match tie_break candidates with
        | Some task => task' ← shaped params task; mret (OneTask task')
        | None => throw (AmbiguousError candidates)
        end
      else throw (AmbiguousError candidates)
  end.

(** Modelled from the spec: the list a name search is scoped to, given by
    its ID or by its name. *)
Definition list_scope (params : FindTasksParams) : option ListScope :=
  match listId params, listName params with
  | Some l, _ => Some (ListById l)
  | None, Some n => Some (ListByName n)
  | None, None => None
  end.

(** Modelled from the spec: steps 2 and 3, the candidates of a name
    search, within a list when one is given and across the workspace
    otherwise. *)
Definition name_matches (params : FindTasksParams) (name : string)
  : Async (World Server) (list ClickUpTask) :=
  match list_scope params with
  | Some scope => matches_in_list scope name (flag (requireExactMatch params))
  | None => global_matches name
  end.

(** Modelled from the spec: step 1, a task ID or a custom task ID is
    resolved by a get-by-id call. *)
Definition task_ref (params : FindTasksParams) : option TaskRef :=
  match taskId params, customTaskId params with
  | Some i, _ => Some (ById i)
  | None, Some c => Some (ByCustomId c)
  | None, None => None
  end.

(** Modelled from the spec: the get-by-id call, one request. *)
Definition get_by_ref (ref : TaskRef) : Async (World Server) ClickUpTask :=
  Core.adapter (ref_request ref) (lookup_ref ref).

(** Modelled from the spec: [TaskServiceSearch.findTasks], the resolution
    policy of section 4.1. *)
Definition findTasks (params : FindTasksParams)
  : Async (World Server) FindResult :=
  effect (Core.log "findTasks" (params_object params)) ;;
  match task_ref params with
  | Some ref =>
      task ← get_by_ref ref;
      task' ← shaped params task; mret (OneTask task')
  | None =>
      match taskName params with
      | None => throw (ValidationError "No task identifier provided")
      | Some name =>
          candidates ← name_matches params name;
          select params candidates
      end
  end.

(** Modelled from the spec: [TaskServiceSearch.findTaskByNameGlobally];
    [null] when no task of the workspace has the name. *)
Definition findTaskByNameGlobally (name : string)
  : Async (World Server) (option ClickUpTask) :=
  effect (Core.log "findTaskByNameGlobally"
            (JObject [("taskName", JString name)])) ;;
  candidates ← global_matches name;
  mret (head candidates).

(** Modelled from the spec: [TaskServiceSearch.updateTaskByName]; the
    resolution of step 2 with an exact match expected, then one update
    call. *)
Definition updateTaskByName (listId taskName : string)
    (updateData : UpdateTaskData) : Async (World Server) ClickUpTask :=
  effect (Core.log "updateTaskByName"
            (JObject [("listId", JString listId);
                      ("taskName", JString taskName);
                      ("updateData", updateData)])) ;;
  candidates ← matches_in_list (ListById listId) taskName true;
  match candidates with
  | [] => throw (NotFoundError ("Task " +:+ quoted taskName +:+ " not found"))
  | [found] =>
      Core.adapter (UpdateTask (task_id found) updateData)
                   (update_task (task_id found) updateData)
  | _ => throw (AmbiguousError candidates)
  end.

(** The search module: the three operations the specification describes,
    and the others as they are given. *)
Definition spec_search : TaskServiceSearch (World Server) := {|
  search_findTaskByName := search_findTaskByName unspecified;
  search_getWorkspaceTasks := search_getWorkspaceTasks unspecified;
  search_getTaskSummaries := search_getTaskSummaries unspecified;
  search_getListViews := search_getListViews unspecified;
  search_getTasksFromView := search_getTasksFromView unspecified;
  search_getTaskDetails := search_getTaskDetails unspecified;
  search_updateTaskByName := updateTaskByName;
  search_findTaskByNameGlobally := findTaskByNameGlobally;
  search_findTasks := findTasks;
|}.

End Search.
End Search.

(** ** Attachment, comment and tag modules

    task-attachments.js, task-comments.js and task-tags.js are missing; the
    facade sees them through the methods it calls. *)

Record TaskServiceAttachments (W : Type) : Type := {
  attachments_uploadTaskAttachment :
    string → Buffer → string → Async W ClickUpTaskAttachment;
  attachments_uploadTaskAttachmentFromUrl :
    string → string → option string → option string →
    Async W ClickUpTaskAttachment;
}.

Record TaskServiceComments (W : Type) : Type := {
  comments_getTaskComments :
    string → option Z → option string → Async W (list ClickUpComment);
  comments_createTaskComment :
    string → string → option bool → option Z → Async W ClickUpComment;
}.

Record TaskServiceTags (W : Type) : Type := {
  tags_addTagToTask : string → string → Async W bool;
  tags_removeTagFromTask : string → string → Async W bool;
  tags_getTaskTags : string → Async W (list ClickUpTag);
  tags_updateTaskTags : string → list string → Async W bool;
}.

Arguments attachments_uploadTaskAttachment {W}.
Arguments attachments_uploadTaskAttachmentFromUrl {W}.
Arguments comments_getTaskComments {W}.
Arguments comments_createTaskComment {W}.
Arguments tags_addTagToTask {W}.
Arguments tags_removeTagFromTask {W}.
Arguments tags_getTaskTags {W}.
Arguments tags_updateTaskTags {W}.

(** ** Task service facade *)

(** [class TaskService extends TaskServiceCore]: the core it inherits and
    the feature modules it composes. *)
Record TaskService (W : Type) : Type := {
  super : TaskServiceCore W;
  search : TaskServiceSearch W;
  attachments : TaskServiceAttachments W;
  comments : TaskServiceComments W;
  tags : TaskServiceTags W;
  customFields : TaskServiceCustomFields W;
}.

Arguments super {W}.
Arguments search {W}.
Arguments attachments {W}.
Arguments comments {W}.
Arguments tags {W}.
Arguments customFields {W}.

(** [filters: ExtendedTaskFilters = {}]: the default value stands in for
    an argument that is left out ([None]) and for one that is passed as
    [undefined]; every other argument is taken as given. *)
Definition or_default (filters : option ExtendedTaskFilters)
  : ExtendedTaskFilters :=
  match filters with
  | None | Some JUndefined => JObject []
  | Some given => given
  end.

Module Facade.
Section Facade.
Context {W : Type}.

(** The constructor: the inherited core is built by [super(...)], the
    construction is logged, and every feature module receives the service
    itself as its core. *)
Definition new
    (inherited_core : TaskServiceCore W)
    (newSearch : TaskServiceCore W → TaskServiceSearch W)
    (newAttachments : TaskServiceCore W → TaskServiceAttachments W)
    (newComments : TaskServiceCore W → TaskServiceComments W)
    (newTags : TaskServiceCore W → TaskServiceTags W)
    (w : W) : TaskService W * W :=
  ({| super := inherited_core;
      search := newSearch inherited_core;
      attachments := newAttachments inherited_core;
      comments := newComments inherited_core;
      tags := newTags inherited_core;
      customFields := {| core := inherited_core |} |},
   logOperation inherited_core "constructor"
     (JObject [("initialized", JBool true)]) w).

Variable this : TaskService W.

(** Delegated search methods *)

Definition findTaskByName (listId taskName : string) :=
  search_findTaskByName (search this) listId taskName.

Definition getWorkspaceTasks (filters : option ExtendedTaskFilters) :=
  search_getWorkspaceTasks (search this) (or_default filters).

Definition getTaskSummaries (filters : option ExtendedTaskFilters) :=
  search_getTaskSummaries (search this) (or_default filters).

Definition getListViews (listId : string) :=
  search_getListViews (search this) listId.

Definition getTasksFromView (viewId : string)
    (filters : option ExtendedTaskFilters) :=
  search_getTasksFromView (search this) viewId (or_default filters).

Definition getTaskDetails (filters : option ExtendedTaskFilters) :=
  search_getTaskDetails (search this) (or_default filters).

Definition updateTaskByName (listId taskName : string)
    (updateData : UpdateTaskData) :=
  search_updateTaskByName (search this) listId taskName updateData.

Definition findTaskByNameGlobally (taskName : string) :=
  search_findTaskByNameGlobally (search this) taskName.

Definition findTasks (params : FindTasksParams) :=
  search_findTasks (search this) params.

(** Delegated attachment methods *)

Definition uploadTaskAttachment (taskId : string) (fileData : Buffer)
    (fileName : string) :=
  attachments_uploadTaskAttachment (attachments this) taskId fileData fileName.

Definition uploadTaskAttachmentFromUrl (taskId fileUrl : string)
    (fileName authHeader : option string) :=
  attachments_uploadTaskAttachmentFromUrl (attachments this)
    taskId fileUrl fileName authHeader.

(** Delegated comment methods *)

Definition getTaskComments (taskId : string) (start : option Z)
    (startId : option string) :=
  comments_getTaskComments (comments this) taskId start startId.

Definition createTaskComment (taskId commentText : string)
    (notifyAll : option bool) (assignee : option Z) :=
  comments_createTaskComment (comments this) taskId commentText notifyAll assignee.

(** Delegated tag methods *)

Definition addTagToTask (taskId tagName : string) :=
  tags_addTagToTask (tags this) taskId tagName.

Definition removeTagFromTask (taskId tagName : string) :=
  tags_removeTagFromTask (tags this) taskId tagName.

Definition getTaskTags (taskId : string) :=
  tags_getTaskTags (tags this) taskId.

Definition updateTaskTags (taskId : string) (tagNames : list string) :=
  tags_updateTaskTags (tags this) taskId tagNames.

(** Delegated custom field methods *)

Definition setCustomFieldValue (taskId fieldId : string) (value : JsValue) :=
  CustomFields.setCustomFieldValue (customFields this) taskId fieldId value.

Definition setCustomFieldValues (taskId : string)
    (fields : list CustomFieldValue) :=
  CustomFields.setCustomFieldValues (customFields this) taskId fields.

Definition getCustomFieldValues (taskId : string) :=
  CustomFields.getCustomFieldValues (customFields this) taskId.

Definition getCustomFieldValue (taskId fieldId : string) :=
  CustomFields.getCustomFieldValue (customFields this) taskId fieldId.

End Facade.
End Facade.

(** ** Entry point *)

Inductive ConsoleLine : Type :=
| StdOut (text : string)
| StdErr (text : string)
| StdErrValue (thrown : Thrown).

(** The process the program runs in: the environment [bootstrap] works on,
    how many times [bootstrap] was started, what was written to the console
    and the exit code once [process.exit] was called. *)
Record Process (Env : Type) : Type := {
  env : Env;
  bootstraps : nat;
  console : list ConsoleLine;
  exited : option Z;
}.

Arguments env {Env}.
Arguments bootstraps {Env}.
Arguments console {Env}.
Arguments exited {Env}.

Module Main.
Section Main.
Context {Env : Type}.

(** bootstrap.js is missing: starting the server either completes or
    throws, and changes the environment. *)
Variable boot : Env → Outcome unit * Env.

Definition bootstrap : Async (Process Env) unit :=
  λ p, let '(outcome, e) := boot (env p) in
       (outcome, {| env := e;
                    bootstraps := S (bootstraps p);
                    console := console p;
                    exited := exited p |}).

Definition console_write (line : ConsoleLine) : Async (Process Env) unit :=
  effect (λ p, {| env := env p;
                  bootstraps := bootstraps p;
                  console := console p ++ [line];
                  exited := exited p |}).

Definition process_exit (code : Z) : Async (Process Env) unit :=
  effect (λ p, {| env := env p;
                  bootstraps := bootstraps p;
                  console := console p;
                  exited := Some code |}).

Definition main : Async (Process Env) unit :=
  try_catch
    (console_write (StdOut "--> [DEBUG] Attempting to bootstrap the server...") ;;
     bootstrap ;;
     console_write
       (StdOut "--> [DEBUG] Bootstrap completed successfully. The server should be running."))
    (λ error,
       console_write (StdErr "!!! A FATAL ERROR OCCURRED DURING BOOTSTRAP !!!") ;;
       console_write (StdErrValue error) ;;
       process_exit 1).

(** A fresh process. *)
Definition start (e : Env) : Process Env :=
  {| env := e; bootstraps := 0; console := []; exited := None |}.

End Main.
End Main.

(** ** A small in-memory workspace

    One implementation of the ClickUp interface, used to run the service on
    concrete inputs: tasks grouped in lists, and custom fields the server
    refuses to set. *)
Module Mock.

Record Workspace : Type := {
  lists : list (string * string);
  tasks : list (string * ClickUpTask);
  locked : list string;
}.

Fixpoint split_on (sep : Ascii.ascii) (s : string) : list string :=
  match s with
  | EmptyString => [EmptyString]
  | String c rest =>
      if Ascii.eqb c sep then EmptyString :: split_on sep rest
      else match split_on sep rest with
           | [] => [String c EmptyString]
           | first :: others => String c first :: others
           end
  end.

Definition find_task (taskId : string) (ws : Workspace) : option ClickUpTask :=
  snd <$> List.find (λ entry, String.eqb (task_id (snd entry)) taskId) (tasks ws).

Definition set_field (fieldId : string) (v : JsValue) (task : ClickUpTask)
  : ClickUpTask :=
  {| task_id := task_id task;
     task_name := task_name task;
     custom_fields := Some (<[fieldId := v]> (or_empty (custom_fields task))) |}.

Definition rename (data : JsValue) (task : ClickUpTask) : ClickUpTask :=
  match data with
  | JObject [("name", JString name)] =>
      {| task_id := task_id task;
         task_name := name;
         custom_fields := custom_fields task |}
  | _ => task
  end.

Definition change (taskId : string) (f : ClickUpTask → ClickUpTask)
    (ws : Workspace) : Workspace :=
  {| lists := lists ws;
     tasks := (λ entry, if String.eqb (task_id (snd entry)) taskId
                        then (fst entry, f (snd entry)) else entry)
              <$> tasks ws;
     locked := locked ws |}.

Definition mock_post (url : string) (body : JsValue) (ws : Workspace)
  : Outcome JsValue * Workspace :=
  match split_on "/"%char url, body with
  | [_; "task"; taskId; "field"; fieldId], JObject [("value", v)] =>
      match find_task taskId ws with
      | None => (inl (HttpError 404 "Task not found"), ws)
      | Some _ =>
          if existsb (String.eqb fieldId) (locked ws)
          then (inl (HttpError 400 "Field cannot be set"), ws)
          else (inr (JObject []), change taskId (set_field fieldId v) ws)
      end
  | _, _ => (inl (HttpError 404 "No such route"), ws)
  end.

Definition mock_get_task (taskId : string) (ws : Workspace)
  : Outcome ClickUpTask * Workspace :=
  match find_task taskId ws with
  | Some task => (inr task, ws)
  | None => (inl (NotFoundError "Task not found"), ws)
  end.

Definition tasks_of_list (l : string) (ws : Workspace) : list ClickUpTask :=
  snd <$> List.filter (λ entry, String.eqb (fst entry) l) (tasks ws).

Definition mock_list_tasks (scope : ListScope) (ws : Workspace)
  : Outcome (list ClickUpTask) * Workspace :=
  match scope with
  | ListById l =>
      if existsb (λ entry, String.eqb (fst entry) l) (lists ws)
      then (inr (tasks_of_list l ws), ws)
      else (inl (NotFoundError "List not found"), ws)
  | ListByName name =>
      match List.find (λ entry, String.eqb (snd entry) name) (lists ws) with
      | Some entry => (inr (tasks_of_list (fst entry) ws), ws)
      | None => (inl (NotFoundError "List not found"), ws)
      end
  end.

Definition mock_update_task (taskId : string) (data : JsValue) (ws : Workspace)
  : Outcome ClickUpTask * Workspace :=
  match find_task taskId ws with
  | Some task => (inr (rename data task), change taskId (rename data) ws)
  | None => (inl (NotFoundError "Task not found"), ws)
  end.

#[global] Instance mock_clickup : ClickUp Workspace := {|
  post := mock_post;
  get_task := mock_get_task;
  get_task_by_custom_id := mock_get_task;
  list_tasks := mock_list_tasks;
  workspace_tasks := λ ws, (inr (snd <$> tasks ws), ws);
  task_details := λ _ _ task ws, (inr task, ws);
  update_task := mock_update_task;
|}.

Definition task (i name : string) : ClickUpTask :=
  {| task_id := i; task_name := name; custom_fields := None |}.

(** A workspace with one list, two tasks of the same name in it, and one
    custom field that cannot be set. *)
Definition demo : Workspace :=
  {| lists := [("L", "Backlog")];
     tasks := [("L", task "t1" "Foo"); ("L", task "t2" "Foo");
               ("L", task "t3" "Bar")];
     locked := ["ro"] |}.

Definition number_field (fieldId : string) (n : Z) : CustomFieldValue :=
  {| id := fieldId; value := JNumber n |}.

(** A batch of three fields whose second one the demo workspace refuses. *)
Definition batch : list CustomFieldValue :=
  [number_field "a" 1; number_field "ro" 2; number_field "b" 3].

(** Parameters that give both a task ID and the name of other tasks. *)
Definition by_id_and_name (i name : string) : FindTasksParams :=
  {| taskId := Some i; customTaskId := None; taskName := Some name;
     listId := Some "L"; listName := None;
     allowMultipleMatches := Some false;
     useSmartDisambiguation := Some false;
     includeFullDetails := None; includeListContext := None;
     requireExactMatch := None |}.

(** Parameters that give a name and a list, and allow neither several
    matches nor smart disambiguation. *)
Definition by_name_in_list (name list : string) : FindTasksParams :=
  {| taskId := None; customTaskId := None; taskName := Some name;
     listId := Some list; listName := None;
     allowMultipleMatches := Some false;
     useSmartDisambiguation := Some false;
     includeFullDetails := None; includeListContext := None;
     requireExactMatch := None |}.

(** A batch of two fields the demo workspace accepts. *)
Definition accepted_batch : list CustomFieldValue :=
  [number_field "a" 1; number_field "b" 3].

Definition fresh (ws : Workspace) : World Workspace :=
  {| server := ws; requests := []; oplog := [] |}.

Definition no_search : TaskServiceSearch (World Workspace) := {|
  search_findTaskByName := λ _ _, resolve None;
  search_getWorkspaceTasks := λ _, resolve (inr (JObject []));
  search_getTaskSummaries := λ _, resolve (JObject []);
  search_getListViews := λ _, resolve None;
  search_getTasksFromView := λ _ _, resolve [];
  search_getTaskDetails := λ _, resolve (JObject []);
  search_updateTaskByName := λ _ _ _, throw (JsError "not implemented");
  search_findTaskByNameGlobally := λ _, resolve None;
  search_findTasks := λ _, resolve NoTask;
|}.

(** The service over the in-memory workspace: the search module of the
    specification with a tie-break rule that is never conclusive, and
    attachment, comment and tag modules that do nothing. *)
Definition service : TaskService (World Workspace) := {|
  super := Core.spec_core;
  search := Search.spec_search (λ _, None) no_search;
  attachments := {|
    attachments_uploadTaskAttachment := λ _ _ _, resolve (JObject []);
    attachments_uploadTaskAttachmentFromUrl := λ _ _ _ _, resolve (JObject []) |};
  comments := {|
    comments_getTaskComments := λ _ _ _, resolve [];
    comments_createTaskComment := λ _ _ _ _, resolve (JObject []) |};
  tags := {|
    tags_addTagToTask := λ _ _, resolve true;
    tags_removeTagFromTask := λ _ _, resolve true;
    tags_getTaskTags := λ _, resolve [];
    tags_updateTaskTags := λ _ _, resolve true |};
  customFields := Core.spec_fields;
|}.

End Mock.

(** ** Vocabulary of the statements *)

(** The request [setCustomFieldValue] issues for one field of a batch. *)
Definition field_request (taskId : string) (field : CustomFieldValue) : Request :=
  HttpPost (CustomFields.field_url taskId (id field))
           (JObject [("value", value field)]).

(** The workspace after ClickUp accepted every field of a batch, one after
    the other; [None] when it refused one of them. *)
Fixpoint apply_fields {Server} `{ClickUp Server} (taskId : string)
    (fields : list CustomFieldValue) (s : Server) : option Server :=
  match fields with
  | [] => Some s
  | field :: rest =>
      match post (CustomFields.field_url taskId (id field))
                 (JObject [("value", value field)]) s with
      | (inr _, s') => apply_fields taskId rest s'
      | (inl _, _) => None
      end
  end.

(** What [setCustomFieldValue] writes to the operation log. *)
Definition logged_set (taskId fieldId : string) (v : JsValue) : string * JsValue :=
  ("setCustomFieldValue",
   JObject [("taskId", JString taskId); ("fieldId", JString fieldId);
            ("value", v)]).

(** The requests a run issued, given the world it started from. *)
Definition issued {Server A} (w : World Server) (run : Outcome A * World Server)
  : list Request :=
  drop (length (requests w)) (requests (snd run)).

(** The requests of a run that are update calls. *)
Definition is_update (r : Request) : bool :=
  match r with
  | UpdateTask _ _ => true
  | _ => false
  end.

(** The requests of a run that are name searches. *)
Definition is_name_search (r : Request) : bool :=
  match r with
  | ListTasks _ | WorkspaceTasks => true
  | _ => false
  end.

(** What [setCustomFieldValues] writes to the operation log for itself,
    and what the call it makes for one field writes. *)
Definition logged_batch (taskId : string) (fields : list CustomFieldValue)
  : string * JsValue :=
  ("setCustomFieldValues",
   JObject [("taskId", JString taskId);
            ("customFields", JArray (CustomFields.field_object <$> fields))]).

Definition logged_field (taskId : string) (field : CustomFieldValue)
  : string * JsValue :=
  logged_set taskId (id field) (value field).

(** Two worlds with the same workspace and the same requests issued; they
    may differ in what was logged. *)
Definition same_traffic {Server} (w1 w2 : World Server) : Prop :=
  server w1 = server w2 ∧ requests w1 = requests w2.

(** Unfolds the operations of [Async]. *)
Ltac run :=
  unfold mbind, mret, Async_bind, Async_ret, await, try_catch, effect, throw,
    resolve; cbn beta iota.

(** * Properties *)

(** ** Strings *)

Lemma append_empty (s : string) : EmptyString +:+ s = s.
Proof. reflexivity. Qed.

Lemma append_char (c : ascii) (s rest : string) :
  String c s +:+ rest = String c (s +:+ rest).
Proof. reflexivity. Qed.

Lemma prefix_append (s rest : string) : String.prefix s (s +:+ rest) = true.
Proof.
  induction s as [|c s IH].
  - rewrite append_empty. by destruct rest.
  - rewrite append_char. simpl.
    destruct (ascii_dec c c); [exact IH | congruence].
Qed.

Lemma includes_append (needle before after : string) :
  includes needle (before +:+ needle +:+ after) = true.
Proof.
  induction before as [|c before IH].
  - rewrite append_empty.
    pose proof (prefix_append needle after) as Hp.
    destruct (needle +:+ after); cbn [includes]; by rewrite Hp.
  - rewrite append_char. cbn [includes]. rewrite IH. apply orb_true_r.
Qed.

Lemma set_failed_names (fieldId : string) (cause : Thrown) :
  names_field fieldId (Described (CustomFields.set_failed fieldId) cause) = true.
Proof.
  unfold names_field, CustomFields.set_failed. cbn [messages existsb].
  by rewrite includes_append.
Qed.

Lemma names_field_described (fieldId message : string) (cause : Thrown) :
  names_field fieldId cause = true →
  names_field fieldId (Described message cause) = true.
Proof.
  unfold names_field. cbn [messages existsb]. intros ->. apply orb_true_r.
Qed.

(** ** Running asynchronous code *)

Lemma for_of_cons {W A} (x : A) (rest : list A) (body : A → Async W unit) (w : W) :
  for_of (x :: rest) body w =
  match body x w with
  | (inr _, w') => for_of rest body w'
  | (inl e, w') => (inl e, w')
  end.
Proof. reflexivity. Qed.

(** ** Custom fields *)

Section CustomFieldsOverClickUp.
Context {Server : Type} `{ClickUp Server}.

(** One call of [setCustomFieldValue] on the modelled core, computed. *)
Lemma setCustomFieldValue_run (taskId fieldId : string) (v : JsValue)
    (w : World Server) :
  CustomFields.setCustomFieldValue Core.spec_fields taskId fieldId v w =
  let url := CustomFields.field_url taskId fieldId in
  let body := JObject [("value", v)] in
  (match fst (post url body (server w)) with
   | inr _ => inr true
   | inl e => inl (Described (CustomFields.set_failed fieldId) e)
   end,
   {| server := snd (post url body (server w));
      requests := requests w ++ [HttpPost url body];
      oplog := oplog w ++ [logged_set taskId fieldId v] |}).
Proof.
  unfold CustomFields.setCustomFieldValue. run.
  unfold Core.spec_fields, Core.spec_core, Core.adapter, Core.log. simpl.
  destruct (post _ _ (server w)) as [[e|answer] s]; reflexivity.
Qed.

(** C7. [setCustomFieldValue] issues exactly one request, the POST to the
    field of the task; when ClickUp answers it returns [true]; when the
    call fails it throws the failure wrapped in a message that names the
    field; it never returns [false]. *)
Theorem setCustomFieldValue_one_post (taskId fieldId : string) (v : JsValue)
    (w : World Server) :
  let run := CustomFields.setCustomFieldValue Core.spec_fields taskId fieldId v w in
  let url := CustomFields.field_url taskId fieldId in
  let body := JObject [("value", v)] in
  requests (snd run) = requests w ++ [HttpPost url body]
  ∧ server (snd run) = snd (post url body (server w))
  ∧ match fst (post url body (server w)) with
    | inr _ => fst run = inr true
    | inl e =>
        fst run = inl (Described (CustomFields.set_failed fieldId) e)
        ∧ names_field fieldId
            (Described (CustomFields.set_failed fieldId) e) = true
    end
  ∧ fst run ≠ inr false.
Proof.
  cbv zeta. rewrite setCustomFieldValue_run. cbn [fst snd server requests].
  repeat split.
  - destruct (fst (post _ _ (server w))); [split|]; auto using set_failed_names.
  - destruct (fst (post _ _ (server w))); discriminate.
Qed.

End CustomFieldsOverClickUp.

Section CustomFieldsOverAnyCore.
Context {W : Type}.
Variable this : TaskServiceCustomFields W.

(** C8. [getCustomFieldValues] logs the operation and calls [getTask];
    when the task is fetched it returns the custom fields mapping of the
    task, and the empty mapping when the task has none. *)
Theorem getCustomFieldValues_of_task (taskId : string) (w w' : W)
    (task : ClickUpTask) :
  getTask (core this) taskId
    (logOperation (core this) "getCustomFieldValues"
       (JObject [("taskId", JString taskId)]) w) = (inr task, w') →
  CustomFields.getCustomFieldValues this taskId w =
  (inr match custom_fields task with
       | Some mapping => mapping
       | None => ∅
       end, w').
Proof.
  intros Hget. unfold CustomFields.getCustomFieldValues. run.
  rewrite Hget. reflexivity.
Qed.

(** When [getTask] fails, so does [getCustomFieldValues], with the failure
    passed through [handleError]. *)
Lemma getCustomFieldValues_no_task (taskId : string) (w w' : W) (e : Thrown) :
  getTask (core this) taskId
    (logOperation (core this) "getCustomFieldValues"
       (JObject [("taskId", JString taskId)]) w) = (inl e, w') →
  CustomFields.getCustomFieldValues this taskId w =
  (inl (handleError (core this) e "Failed to get custom field values"), w').
Proof.
  intros Hget. unfold CustomFields.getCustomFieldValues. run.
  rewrite Hget. reflexivity.
Qed.

(** One call of [getCustomFieldValue] once the mapping was fetched. *)
Lemma getCustomFieldValue_run (taskId fieldId : string) (w w' : W)
    (mapping : gmap string JsValue) :
  CustomFields.getCustomFieldValues this taskId
    (logOperation (core this) "getCustomFieldValue"
       (JObject [("taskId", JString taskId); ("fieldId", JString fieldId)]) w)
  = (inr mapping, w') →
  CustomFields.getCustomFieldValue this taskId fieldId w =
  (if js_in fieldId mapping then inr (js_get mapping fieldId)
   else inl (handleError (core this)
               (handleError (core this)
                  (JsError (CustomFields.not_found fieldId))
                  (CustomFields.not_found fieldId))
               (CustomFields.get_failed fieldId)), w').
Proof.
  intros Hget. unfold CustomFields.getCustomFieldValue. run.
  rewrite Hget. destruct (js_in fieldId mapping); reflexivity.
Qed.

(** On any core, [setCustomFieldValue] returns [true] or throws what
    [handleError] makes of the failure and of the message that names the
    field; it never returns [false]. *)
Lemma setCustomFieldValue_true_or_wrapped (taskId fieldId : string)
    (v : JsValue) (w : W) :
  match fst (CustomFields.setCustomFieldValue this taskId fieldId v w) with
  | inr b => b = true
  | inl thrown =>
      ∃ e, thrown = handleError (core this) e (CustomFields.set_failed fieldId)
  end.
Proof.
  unfold CustomFields.setCustomFieldValue. run.
  destruct (makeRequest _ _ _) as [[e|answer] w']; cbn [fst]; eauto.
Qed.

(** For a field ID that is not the name of a property every object
    inherits, a value is returned exactly when the ID is a key of the
    mapping, and the not-found error is thrown otherwise. *)
Lemma getCustomFieldValue_own_key (taskId fieldId : string) (w w' : W)
    (mapping : gmap string JsValue) :
  inherited fieldId = false →
  CustomFields.getCustomFieldValues this taskId
    (logOperation (core this) "getCustomFieldValue"
       (JObject [("taskId", JString taskId); ("fieldId", JString fieldId)]) w)
  = (inr mapping, w') →
  match mapping !! fieldId with
  | Some v => CustomFields.getCustomFieldValue this taskId fieldId w = (inr v, w')
  | None =>
      CustomFields.getCustomFieldValue this taskId fieldId w =
      (inl (handleError (core this)
              (handleError (core this)
                 (JsError (CustomFields.not_found fieldId))
                 (CustomFields.not_found fieldId))
              (CustomFields.get_failed fieldId)), w')
  end.
Proof.
  intros Hown Hget. rewrite (getCustomFieldValue_run _ _ _ _ _ Hget).
  unfold js_in, js_get. destruct (mapping !! fieldId); [done|].
  by rewrite Hown.
Qed.

(** For the name of an inherited property that is not a key of the
    mapping, a value is returned all the same. *)
Lemma getCustomFieldValue_inherited_key (taskId fieldId : string) (w w' : W)
    (mapping : gmap string JsValue) :
  inherited fieldId = true →
  mapping !! fieldId = None →
  CustomFields.getCustomFieldValues this taskId
    (logOperation (core this) "getCustomFieldValue"
       (JObject [("taskId", JString taskId); ("fieldId", JString fieldId)]) w)
  = (inr mapping, w') →
  CustomFields.getCustomFieldValue this taskId fieldId w =
  (inr (JNative ("Object.prototype." +:+ fieldId)), w').
Proof.
  intros Hin Hnone Hget. rewrite (getCustomFieldValue_run _ _ _ _ _ Hget).
  unfold js_in, js_get. by rewrite Hnone, Hin.
Qed.

End CustomFieldsOverAnyCore.

(** Witness of C8: the task "t1" of the demo workspace has no custom fields
    attribute, and the empty mapping is returned. *)
Lemma getCustomFieldValues_of_task_witness :
  CustomFields.getCustomFieldValues Core.spec_fields "t1" (Mock.fresh Mock.demo)
  = (inr ∅,
     {| server := Mock.demo;
        requests := [GetTaskById "t1"];
        oplog := [("getCustomFieldValues", JObject [("taskId", JString "t1")])] |}).
Proof.
  apply (getCustomFieldValues_of_task Core.spec_fields "t1"
           (Mock.fresh Mock.demo) _ (Mock.task "t1" "Foo")).
  reflexivity.
Defined.

(** C2, at a field ID the task does not have: "toString" is not a key of
    the mapping [getCustomFieldValues] returns for task "t1", and
    [getCustomFieldValue] returns a value for it instead of throwing. *)
Lemma getCustomFieldValue_toString :
  fst (CustomFields.getCustomFieldValues Core.spec_fields "t1"
         (Mock.fresh Mock.demo)) = inr ∅
  ∧ (∅ : gmap string JsValue) !! "toString" = None
  ∧ fst (CustomFields.getCustomFieldValue Core.spec_fields "t1" "toString"
           (Mock.fresh Mock.demo))
    = inr (JNative "Object.prototype.toString").
Proof. split; [reflexivity | split; reflexivity]. Qed.

Section BatchOverClickUp.
Context {Server : Type} `{ClickUp Server}.

(** One turn of the loop of [setCustomFieldValues]. *)
Lemma batch_turn (taskId : string) (field : CustomFieldValue)
    (w : World Server) :
  (CustomFields.setCustomFieldValue Core.spec_fields taskId
     (id field) (value field) ;; mret tt) w =
  (match fst (post (CustomFields.field_url taskId (id field))
                   (JObject [("value", value field)]) (server w)) with
   | inr _ => inr tt
   | inl e => inl (Described (CustomFields.set_failed (id field)) e)
   end,
   {| server := snd (post (CustomFields.field_url taskId (id field))
                          (JObject [("value", value field)]) (server w));
      requests := requests w ++ [field_request taskId field];
      oplog := oplog w ++ [logged_set taskId (id field) (value field)] |}).
Proof.
  run. rewrite setCustomFieldValue_run. cbv zeta.
  destruct (fst (post _ _ (server w))); reflexivity.
Qed.

(** While ClickUp accepts the fields, the loop posts them one after the
    other, in the order of the list. *)
Lemma batch_loop_accepted (taskId : string) (fields : list CustomFieldValue) :
  ∀ (w : World Server) (s : Server),
    apply_fields taskId fields (server w) = Some s →
    let run :=
      for_of fields
        (λ field, CustomFields.setCustomFieldValue Core.spec_fields taskId
                    (id field) (value field) ;; mret tt) w in
    fst run = inr tt
    ∧ server (snd run) = s
    ∧ requests (snd run) = requests w ++ (field_request taskId <$> fields).
Proof.
  induction fields as [|field rest IH]; intros w s Happly; cbv zeta.
  - simpl in *. injection Happly as <-. by rewrite app_nil_r.
  - rewrite for_of_cons, batch_turn. cbn [apply_fields] in Happly.
    destruct (post _ _ (server w)) as [[e|answer] s1]; [done|].
    cbn [fst snd].
    destruct (IH {| server := s1;
                    requests := requests w ++ [field_request taskId field];
                    oplog := oplog w ++
                      [logged_set taskId (id field) (value field)] |} s Happly)
      as (Hok & Hs & Hreq).
    rewrite Hok, Hs, Hreq. cbn [requests fmap list_fmap].
    by rewrite <- app_assoc.
Qed.

(** The loop stops at the first field ClickUp refuses: the fields before
    it were posted in order, the refused field was posted last, and the
    fields after it are not posted. *)
Lemma batch_loop_refused (taskId : string)
    (before after : list CustomFieldValue) (field : CustomFieldValue) :
  ∀ (w : World Server) (s s' : Server) (e : Thrown),
    apply_fields taskId before (server w) = Some s →
    post (CustomFields.field_url taskId (id field))
         (JObject [("value", value field)]) s = (inl e, s') →
    let run :=
      for_of (before ++ field :: after)
        (λ field, CustomFields.setCustomFieldValue Core.spec_fields taskId
                    (id field) (value field) ;; mret tt) w in
    fst run = inl (Described (CustomFields.set_failed (id field)) e)
    ∧ server (snd run) = s'
    ∧ requests (snd run) =
      requests w ++ (field_request taskId <$> before ++ [field]).
Proof.
  induction before as [|first before IH]; intros w s s' e Happly Hpost;
    cbv zeta.
  - simpl in Happly. injection Happly as <-.
    rewrite app_nil_l, for_of_cons, batch_turn, Hpost. done.
  - rewrite <- app_comm_cons, for_of_cons, batch_turn.
    cbn [apply_fields] in Happly.
    destruct (post _ _ (server w)) as [[e1|answer] s1]; [done|].
    cbn [fst snd].
    destruct (IH {| server := s1;
                    requests := requests w ++ [field_request taskId first];
                    oplog := oplog w ++
                      [logged_set taskId (id first) (value first)] |}
                 s s' e Happly Hpost) as (Hfail & Hs & Hreq).
    rewrite Hfail, Hs, Hreq. cbn [requests].
    by rewrite <- app_assoc.
Qed.

(** C1. [setCustomFieldValues] sets the fields one after the other in the
    order of the list. When ClickUp accepted the fields before the K-th
    and refuses the K-th, the call throws an error that names field K;
    the requests issued are the posts of fields 1 to K in order and
    nothing else, so that no field after the K-th is attempted and
    nothing is rolled back: the workspace is the one the accepted fields
    and the refused call left. *)
Theorem setCustomFieldValues_stops_at_first_failure (taskId : string)
    (before after : list CustomFieldValue) (field : CustomFieldValue)
    (w : World Server) (s s' : Server) (e : Thrown) :
  apply_fields taskId before (server w) = Some s →
  post (CustomFields.field_url taskId (id field))
       (JObject [("value", value field)]) s = (inl e, s') →
  let run := CustomFields.setCustomFieldValues Core.spec_fields taskId
               (before ++ field :: after) w in
  let thrown := Described "Failed to set custom field values"
                  (Described (CustomFields.set_failed (id field)) e) in
  fst run = inl thrown
  ∧ names_field (id field) thrown = true
  ∧ requests (snd run) =
    requests w ++ (field_request taskId <$> before ++ [field])
  ∧ server (snd run) = s'.
Proof.
  intros Happly Hpost. cbv zeta.
  destruct (batch_loop_refused taskId before after field
              (Core.log "setCustomFieldValues"
                 (JObject [("taskId", JString taskId);
                           ("customFields",
                            JArray (CustomFields.field_object <$>
                                      before ++ field :: after))]) w)
              s s' e Happly Hpost) as (Hfail & Hs & Hreq).
  unfold CustomFields.setCustomFieldValues. run.
  change (logOperation (core Core.spec_fields)) with (@Core.log Server).
  destruct (for_of _ _ _) as [[e'|[]] w'] eqn:Hloop;
    cbn [fst snd] in *; [|done].
  injection Hfail as ->. cbn [handleError core Core.spec_fields Core.spec_core].
  repeat split; auto using names_field_described, set_failed_names.
Qed.

(** When ClickUp accepts every field, [setCustomFieldValues] returns
    [true] after posting the fields in the order of the list. *)
Lemma setCustomFieldValues_all_accepted (taskId : string)
    (fields : list CustomFieldValue) (w : World Server) (s : Server) :
  apply_fields taskId fields (server w) = Some s →
  let run := CustomFields.setCustomFieldValues Core.spec_fields taskId fields w in
  fst run = inr true
  ∧ requests (snd run) = requests w ++ (field_request taskId <$> fields)
  ∧ server (snd run) = s.
Proof.
  intros Happly. cbv zeta.
  destruct (batch_loop_accepted taskId fields
              (Core.log "setCustomFieldValues"
                 (JObject [("taskId", JString taskId);
                           ("customFields",
                            JArray (CustomFields.field_object <$> fields))]) w)
              s Happly) as (Hok & Hs & Hreq).
  unfold CustomFields.setCustomFieldValues. run.
  change (logOperation (core Core.spec_fields)) with (@Core.log Server).
  destruct (for_of _ _ _) as [[e'|[]] w'] eqn:Hloop;
    cbn [fst snd] in *; [done|].
  by repeat split.
Qed.

End BatchOverClickUp.

(** Witness of C1: of the batch "a", "ro", "b" on task "t1" of the demo
    workspace, "a" is set, the call for "ro" fails, "b" is not posted. *)
Lemma setCustomFieldValues_stops_witness :
  let run := CustomFields.setCustomFieldValues Core.spec_fields "t1"
               Mock.batch (Mock.fresh Mock.demo) in
  let thrown :=
    Described "Failed to set custom field values"
      (Described (CustomFields.set_failed "ro")
         (HttpError 400 "Field cannot be set")) in
  fst run = inl thrown
  ∧ names_field "ro" thrown = true
  ∧ requests (snd run) =
    [HttpPost "/task/t1/field/a" (JObject [("value", JNumber 1)]);
     HttpPost "/task/t1/field/ro" (JObject [("value", JNumber 2)])]
  ∧ server (snd run) =
    Mock.change "t1" (Mock.set_field "a" (JNumber 1)) Mock.demo.
Proof.
  apply (setCustomFieldValues_stops_at_first_failure "t1"
           [Mock.number_field "a" 1] [Mock.number_field "b" 3]
           (Mock.number_field "ro" 2) (Mock.fresh Mock.demo)
           (Mock.change "t1" (Mock.set_field "a" (JNumber 1)) Mock.demo)
           (Mock.change "t1" (Mock.set_field "a" (JNumber 1)) Mock.demo)
           (HttpError 400 "Field cannot be set")); reflexivity.
Defined.

(** After that run, [getCustomFieldValues] shows field "a" alone: the
    field set before the failure stays set, the others are not. *)
Example setCustomFieldValues_partial_state :
  let after := snd (CustomFields.setCustomFieldValues Core.spec_fields "t1"
                      Mock.batch (Mock.fresh Mock.demo)) in
  fst (CustomFields.getCustomFieldValues Core.spec_fields "t1" after)
  = inr {[ "a" := JNumber 1 ]}.
Proof. reflexivity. Qed.

(** ** Task resolution *)

Lemma issued_after {Server A} (w : World Server)
    (run : Outcome A * World Server) (new : list Request) :
  requests (snd run) = requests w ++ new → issued w run = new.
Proof. unfold issued. intros ->. by rewrite drop_app_length. Qed.

Section Resolution.
Context {Server : Type} `{ClickUp Server}.
Variable tie_break : list ClickUpTask → option ClickUpTask.
Variable unspecified : TaskServiceSearch (World Server).
Variable svc : TaskService (World Server).
Hypothesis specified : search svc = Search.spec_search tie_break unspecified.

Lemma exact_matches_none (name : string) (tasks : list ClickUpTask) :
  Forall (λ t, task_name t ≠ name) tasks →
  Search.exact_matches name tasks = [].
Proof.
  unfold Search.exact_matches.
  induction 1 as [|t tasks Hne _ IH]; [done|].
  rewrite filter_cons. by destruct (decide (task_name t = name)).
Qed.

(** C3. When [findTasks] is given a task ID, or a custom task ID, the
    task is resolved by one get-by-id call and no name search is issued:
    whatever task name and list are given with it, the call fails with
    the error of the get-by-id call when the ID does not exist and
    returns the task of that ID otherwise, in the shape asked for. *)
Theorem findTasks_by_id_short_circuits (params : FindTasksParams)
    (ref : TaskRef) (w : World Server) :
  Search.task_ref params = Some ref →
  let run := Facade.findTasks svc params w in
  let full := flag (includeFullDetails params) in
  let context := flag (includeListContext params) in
  existsb is_name_search (issued w run) = false
  ∧ match lookup_ref ref (server w) with
    | (inl e, _) => fst run = inl e ∧ issued w run = [ref_request ref]
    | (inr task, s) =>
        if full || context then
          fst run = match fst (task_details full context task s) with
                    | inl e => inl e
                    | inr detailed => inr (OneTask detailed)
                    end
          ∧ issued w run =
            [ref_request ref; TaskDetails (task_id task) full context]
        else fst run = inr (OneTask task) ∧ issued w run = [ref_request ref]
    end.
Proof.
  intros Href. cbv zeta. unfold Facade.findTasks. rewrite specified.
  cbn [search_findTasks Search.spec_search]. unfold Search.findTasks. run.
  rewrite Href. unfold Search.get_by_ref, Search.shaped, Core.adapter. run.
  cbn [server requests Core.log].
  destruct (lookup_ref ref (server w)) as [[e|task] s].
  - rewrite (issued_after w _ [ref_request ref]) by done. cbn [fst].
    by destruct ref.
  - destruct (flag (includeFullDetails params) ||
              flag (includeListContext params)); cbn [server requests].
    + destruct (task_details _ _ task s) as [[e|detailed] s'];
        cbn [fst];
        rewrite (issued_after w _ [ref_request ref; TaskDetails (task_id task)
                   (flag (includeFullDetails params))
                   (flag (includeListContext params))])
          by (cbn [snd requests]; by rewrite <- app_assoc);
        by destruct ref.
    + rewrite (issued_after w _ [ref_request ref]) by done. cbn [fst].
      by destruct ref.
Qed.

(** C4. When a name search of [findTasks] finds several candidates and
    neither several matches nor smart disambiguation are allowed, the
    call fails with the ambiguity error that lists the candidates. *)
Theorem findTasks_ambiguous (params : FindTasksParams) (name : string)
    (candidates : list ClickUpTask) (w w' : World Server) :
  Search.task_ref params = None →
  taskName params = Some name →
  flag (allowMultipleMatches params) = false →
  flag (useSmartDisambiguation params) = false →
  Search.name_matches params name
    (Core.log "findTasks" (params_object params) w) = (inr candidates, w') →
  2 ≤ length candidates →
  Facade.findTasks svc params w = (inl (AmbiguousError candidates), w').
Proof.
  intros Href Hname Hmany Hsmart Hfound Hlen.
  unfold Facade.findTasks. rewrite specified.
  cbn [search_findTasks Search.spec_search]. unfold Search.findTasks. run.
  rewrite Href, Hname, Hfound. unfold Search.select.
  destruct candidates as [|first [|second others]]; simpl in Hlen; [lia..|].
  by rewrite Hmany, Hsmart.
Qed.

(** The candidates of a name search within a list, from the answer of
    ClickUp: the exact matches, or, when there is none and an exact match
    is not required, the loose ones. *)
Lemma matches_in_list_run (scope : ListScope) (name : string)
    (exact_only : bool) (tasks : list ClickUpTask) (w : World Server)
    (s : Server) :
  list_tasks scope (server w) = (inr tasks, s) →
  Search.matches_in_list scope name exact_only w =
  (inr match Search.exact_matches name tasks with
       | [] => if exact_only then [] else Search.loose_matches name tasks
       | found => found
       end,
   {| server := s; requests := requests w ++ [ListTasks scope];
      oplog := oplog w |}).
Proof.
  intros Hlist. unfold Search.matches_in_list, Core.adapter. run.
  by rewrite Hlist.
Qed.

(** [findTaskByNameGlobally] returns the first task of the workspace
    whose name equals the name asked for. *)
Lemma findTaskByNameGlobally_run (name : string) (tasks : list ClickUpTask)
    (w : World Server) (s : Server) :
  workspace_tasks (server w) = (inr tasks, s) →
  let run := Facade.findTaskByNameGlobally svc name w in
  fst run = inr (head (filter (λ t, task_name t = name) tasks))
  ∧ issued w run = [WorkspaceTasks]
  ∧ server (snd run) = s.
Proof.
  intros Hall. cbv zeta. unfold Facade.findTaskByNameGlobally.
  rewrite specified. cbn [search_findTaskByNameGlobally Search.spec_search].
  unfold Search.findTaskByNameGlobally, Search.global_matches, Core.adapter.
  run. cbn [server requests Core.log]. rewrite Hall. cbn [fst snd server].
  by rewrite (issued_after w _ [WorkspaceTasks]).
Qed.

(** C5. [findTaskByNameGlobally] issues one workspace-wide task query and
    keeps the tasks whose name equals the name asked for; when no task of
    the workspace has the name it returns [null] and throws nothing. *)
Theorem findTaskByNameGlobally_no_match (name : string)
    (tasks : list ClickUpTask) (w : World Server) (s : Server) :
  workspace_tasks (server w) = (inr tasks, s) →
  Forall (λ t, task_name t ≠ name) tasks →
  let run := Facade.findTaskByNameGlobally svc name w in
  fst run = inr None
  ∧ issued w run = [WorkspaceTasks]
  ∧ server (snd run) = s.
Proof.
  intros Hall Hnone. cbv zeta.
  destruct (findTaskByNameGlobally_run name tasks w s Hall) as (Hrun & Hreq & Hs).
  rewrite Hrun, Hreq, Hs.
  pose proof (exact_matches_none name tasks Hnone) as Hfilter.
  unfold Search.exact_matches in Hfilter. by rewrite Hfilter.
Qed.

(** C6. [updateTaskByName] looks for the tasks of the list that have
    exactly the name. With no such task it throws a not-found error, with
    several it throws the ambiguity error, and in both cases the list
    query is the only request: no update is attempted. With exactly one
    it issues one update call, for that task, and returns its answer. *)
Theorem updateTaskByName_updates_only_one_match (listId name : string)
    (updateData : UpdateTaskData) (tasks : list ClickUpTask)
    (w : World Server) (s : Server) :
  list_tasks (ListById listId) (server w) = (inr tasks, s) →
  let run := Facade.updateTaskByName svc listId name updateData w in
  match filter (λ t, task_name t = name) tasks with
  | [] =>
      fst run = inl (NotFoundError ("Task " +:+ quoted name +:+ " not found"))
      ∧ issued w run = [ListTasks (ListById listId)]
      ∧ server (snd run) = s
  | [found] =>
      fst run = fst (update_task (task_id found) updateData s)
      ∧ issued w run =
        [ListTasks (ListById listId); UpdateTask (task_id found) updateData]
      ∧ server (snd run) = snd (update_task (task_id found) updateData s)
  | found =>
      fst run = inl (AmbiguousError found)
      ∧ issued w run = [ListTasks (ListById listId)]
      ∧ server (snd run) = s
  end.
Proof.
  intros Hlist. cbv zeta. unfold Facade.updateTaskByName. rewrite specified.
  cbn [search_updateTaskByName Search.spec_search].
  unfold Search.updateTaskByName. run.
  rewrite (matches_in_list_run (ListById listId) name true tasks _ s)
    by exact Hlist.
  unfold Search.exact_matches. cbn [requests Core.log].
  destruct (filter (λ t, task_name t = name) tasks)
    as [|found [|second others]]; cbn [fst snd server].
  - by rewrite (issued_after w _ [ListTasks (ListById listId)]).
  - unfold Core.adapter. cbn [server requests].
    destruct (update_task (task_id found) updateData s) as [answer s'].
    cbn [fst snd server].
    by rewrite (issued_after w _ [ListTasks (ListById listId);
                                  UpdateTask (task_id found) updateData])
      by (cbn [snd requests]; by rewrite <- app_assoc).
  - by rewrite (issued_after w _ [ListTasks (ListById listId)]).
Qed.

(** When the list query itself fails, its error is thrown and no update
    is attempted either. *)
Lemma updateTaskByName_list_error (listId name : string)
    (updateData : UpdateTaskData) (e : Thrown) (w : World Server) (s : Server) :
  list_tasks (ListById listId) (server w) = (inl e, s) →
  let run := Facade.updateTaskByName svc listId name updateData w in
  fst run = inl e ∧ issued w run = [ListTasks (ListById listId)].
Proof.
  intros Hlist. cbv zeta. unfold Facade.updateTaskByName. rewrite specified.
  cbn [search_updateTaskByName Search.spec_search].
  unfold Search.updateTaskByName, Search.matches_in_list, Core.adapter. run.
  cbn [server requests Core.log]. rewrite Hlist. cbn [fst snd].
  by rewrite (issued_after w _ [ListTasks (ListById listId)]).
Qed.

End Resolution.

(** Witness of C3: task "t3" is named "Bar"; asked for with the name "Foo",
    which two other tasks have, it is the task that is returned, after one
    get-by-id call. *)
Lemma findTasks_by_id_witness :
  let run := Facade.findTasks Mock.service (Mock.by_id_and_name "t3" "Foo")
               (Mock.fresh Mock.demo) in
  existsb is_name_search (issued (Mock.fresh Mock.demo) run) = false
  ∧ fst run = inr (OneTask (Mock.task "t3" "Bar"))
  ∧ issued (Mock.fresh Mock.demo) run = [GetTaskById "t3"].
Proof.
  exact (findTasks_by_id_short_circuits (λ _, None) Mock.no_search
           Mock.service eq_refl (Mock.by_id_and_name "t3" "Foo") (ById "t3")
           (Mock.fresh Mock.demo) eq_refl).
Defined.

(** An ID that does not exist fails with the not-found error of the
    get-by-id call, whatever name comes with it. *)
Example findTasks_unknown_id :
  fst (Facade.findTasks Mock.service (Mock.by_id_and_name "t9" "Foo")
         (Mock.fresh Mock.demo))
  = inl (NotFoundError "Task not found").
Proof. reflexivity. Qed.

(** Witness of C4: two tasks of list "L" are named "Foo". *)
Lemma findTasks_ambiguous_witness :
  Facade.findTasks Mock.service (Mock.by_name_in_list "Foo" "L")
    (Mock.fresh Mock.demo)
  = (inl (AmbiguousError [Mock.task "t1" "Foo"; Mock.task "t2" "Foo"]),
     {| server := Mock.demo;
        requests := [ListTasks (ListById "L")];
        oplog := [("findTasks",
                   params_object (Mock.by_name_in_list "Foo" "L"))] |}).
Proof.
  apply (findTasks_ambiguous (λ _, None) Mock.no_search Mock.service eq_refl
           (Mock.by_name_in_list "Foo" "L") "Foo");
    [reflexivity | reflexivity | reflexivity | reflexivity | reflexivity
    | simpl; lia].
Defined.

(** Witness of C5: no task of the demo workspace is named "Baz". *)
Lemma findTaskByNameGlobally_no_match_witness :
  let run := Facade.findTaskByNameGlobally Mock.service "Baz"
               (Mock.fresh Mock.demo) in
  fst run = inr None
  ∧ issued (Mock.fresh Mock.demo) run = [WorkspaceTasks]
  ∧ server (snd run) = Mock.demo.
Proof.
  apply (findTaskByNameGlobally_no_match (λ _, None) Mock.no_search
           Mock.service eq_refl "Baz"
           [Mock.task "t1" "Foo"; Mock.task "t2" "Foo"; Mock.task "t3" "Bar"]);
    [reflexivity | repeat constructor; discriminate].
Defined.

(** Witness of C6: "Foo" names two tasks of list "L"; the update is not
    attempted. *)
Lemma updateTaskByName_witness :
  let run := Facade.updateTaskByName Mock.service "L" "Foo"
               (JObject [("name", JString "Baz")]) (Mock.fresh Mock.demo) in
  fst run = inl (AmbiguousError [Mock.task "t1" "Foo"; Mock.task "t2" "Foo"])
  ∧ issued (Mock.fresh Mock.demo) run = [ListTasks (ListById "L")]
  ∧ server (snd run) = Mock.demo.
Proof.
  exact (updateTaskByName_updates_only_one_match (λ _, None) Mock.no_search
           Mock.service eq_refl "L" "Foo" (JObject [("name", JString "Baz")])
           [Mock.task "t1" "Foo"; Mock.task "t2" "Foo"; Mock.task "t3" "Bar"]
           (Mock.fresh Mock.demo) Mock.demo eq_refl).
Defined.

(** With exactly one task of the name, the update is issued, once. *)
Example updateTaskByName_single_match :
  let run := Facade.updateTaskByName Mock.service "L" "Bar"
               (JObject [("name", JString "Baz")]) (Mock.fresh Mock.demo) in
  fst run = inr (Mock.task "t3" "Baz")
  ∧ requests (snd run) =
    [ListTasks (ListById "L");
     UpdateTask "t3" (JObject [("name", JString "Baz")])].
Proof. split; reflexivity. Qed.

(** With no task of the name, a not-found error and no update. *)
Example updateTaskByName_no_match :
  let run := Facade.updateTaskByName Mock.service "L" "Qux"
               (JObject [("name", JString "Baz")]) (Mock.fresh Mock.demo) in
  fst run = inl (NotFoundError ("Task " +:+ quoted "Qux" +:+ " not found"))
  ∧ requests (snd run) = [ListTasks (ListById "L")].
Proof. split; reflexivity. Qed.

(** ** Entry point *)

Section EntryPoint.
Context {Env : Type}.
Variable boot : Env → Outcome unit * Env.

(** C9. [main] starts [bootstrap] once. When [bootstrap] throws, the
    process exits with code 1; when it completes, [main] does not exit
    the process. In both cases nothing is thrown out of [main]. *)
Theorem main_exits_with_1_on_bootstrap_failure (p : Process Env) :
  let run := Main.main boot p in
  bootstraps (snd run) = S (bootstraps p)
  ∧ env (snd run) = snd (boot (env p))
  ∧ fst run = inr tt
  ∧ match fst (boot (env p)) with
    | inl e => exited (snd run) = Some 1%Z
    | inr _ => exited (snd run) = exited p
    end.
Proof.
  cbv zeta. unfold Main.main, Main.bootstrap, Main.console_write,
    Main.process_exit. run. cbn [env bootstraps console exited].
  by destruct (boot (env p)) as [[e|[]] e'].
Qed.

(** What the failing run writes: the error banner, then the error. *)
Lemma main_reports_failure (p : Process Env) (e : Thrown) (e' : Env) :
  boot (env p) = (inl e, e') →
  console (snd (Main.main boot p)) =
  console p ++
  [StdOut "--> [DEBUG] Attempting to bootstrap the server...";
   StdErr "!!! A FATAL ERROR OCCURRED DURING BOOTSTRAP !!!";
   StdErrValue e].
Proof.
  intros Hboot. unfold Main.main, Main.bootstrap, Main.console_write,
    Main.process_exit. run. cbn [env bootstraps console exited].
  rewrite Hboot. cbn [snd console]. by rewrite <- !app_assoc.
Qed.

End EntryPoint.

(** ** Facade *)

Section Delegation.
Context {W : Type}.
Variable this : TaskService W.

(** C10. Every method of the facade returns what the method of the same
    name of the composed module returns for the same arguments; in the four
    methods that take filters, a filter that is left out or passed as
    [undefined] reaches the module as the empty object, and every other
    filter reaches it unchanged. *)
Theorem facade_delegates :
  (∀ listId name,
      Facade.findTaskByName this listId name =
      search_findTaskByName (search this) listId name)
  ∧ (∀ filters,
      Facade.getWorkspaceTasks this filters =
      search_getWorkspaceTasks (search this)
        (match filters with
         | None | Some JUndefined => JObject []
         | Some given => given
         end))
  ∧ (∀ filters,
      Facade.getTaskSummaries this filters =
      search_getTaskSummaries (search this)
        (match filters with
         | None | Some JUndefined => JObject []
         | Some given => given
         end))
  ∧ (∀ listId,
      Facade.getListViews this listId = search_getListViews (search this) listId)
  ∧ (∀ viewId filters,
      Facade.getTasksFromView this viewId filters =
      search_getTasksFromView (search this) viewId
        (match filters with
         | None | Some JUndefined => JObject []
         | Some given => given
         end))
  ∧ (∀ filters,
      Facade.getTaskDetails this filters =
      search_getTaskDetails (search this)
        (match filters with
         | None | Some JUndefined => JObject []
         | Some given => given
         end))
  ∧ (∀ listId name updateData,
      Facade.updateTaskByName this listId name updateData =
      search_updateTaskByName (search this) listId name updateData)
  ∧ (∀ name,
      Facade.findTaskByNameGlobally this name =
      search_findTaskByNameGlobally (search this) name)
  ∧ (∀ params,
      Facade.findTasks this params = search_findTasks (search this) params)
  ∧ (∀ taskId fileData fileName,
      Facade.uploadTaskAttachment this taskId fileData fileName =
      attachments_uploadTaskAttachment (attachments this)
        taskId fileData fileName)
  ∧ (∀ taskId fileUrl fileName authHeader,
      Facade.uploadTaskAttachmentFromUrl this taskId fileUrl fileName authHeader =
      attachments_uploadTaskAttachmentFromUrl (attachments this)
        taskId fileUrl fileName authHeader)
  ∧ (∀ taskId start startId,
      Facade.getTaskComments this taskId start startId =
      comments_getTaskComments (comments this) taskId start startId)
  ∧ (∀ taskId commentText notifyAll assignee,
      Facade.createTaskComment this taskId commentText notifyAll assignee =
      comments_createTaskComment (comments this)
        taskId commentText notifyAll assignee)
  ∧ (∀ taskId tagName,
      Facade.addTagToTask this taskId tagName =
      tags_addTagToTask (tags this) taskId tagName)
  ∧ (∀ taskId tagName,
      Facade.removeTagFromTask this taskId tagName =
      tags_removeTagFromTask (tags this) taskId tagName)
  ∧ (∀ taskId,
      Facade.getTaskTags this taskId = tags_getTaskTags (tags this) taskId)
  ∧ (∀ taskId tagNames,
      Facade.updateTaskTags this taskId tagNames =
      tags_updateTaskTags (tags this) taskId tagNames)
  ∧ (∀ taskId fieldId v,
      Facade.setCustomFieldValue this taskId fieldId v =
      CustomFields.setCustomFieldValue (customFields this) taskId fieldId v)
  ∧ (∀ taskId fields,
      Facade.setCustomFieldValues this taskId fields =
      CustomFields.setCustomFieldValues (customFields this) taskId fields)
  ∧ (∀ taskId,
      Facade.getCustomFieldValues this taskId =
      CustomFields.getCustomFieldValues (customFields this) taskId)
  ∧ (∀ taskId fieldId,
      Facade.getCustomFieldValue this taskId fieldId =
      CustomFields.getCustomFieldValue (customFields this) taskId fieldId).
Proof.
  repeat split; reflexivity.
Qed.

End Delegation.

(** The default parameter stands in for [undefined] only: a filter left
    out or passed as [undefined] becomes the empty object, [null] and any
    other value are passed on as they are. *)
Lemma or_default_cases (given : ExtendedTaskFilters) :
  or_default None = JObject []
  ∧ or_default (Some JUndefined) = JObject []
  ∧ or_default (Some JNull) = JNull
  ∧ (given ≠ JUndefined → or_default (Some given) = given).
Proof.
  repeat split. intros Hdefined. by destruct given.
Qed.

(** In a service made by the constructor, the custom fields module works on
    the core the service inherits. *)
Lemma new_customFields_core {W} (inherited_core : TaskServiceCore W)
    newSearch newAttachments newComments newTags (w : W) :
  core (customFields (fst (Facade.new inherited_core newSearch newAttachments
                             newComments newTags w))) = inherited_core
  ∧ super (fst (Facade.new inherited_core newSearch newAttachments
                  newComments newTags w)) = inherited_core.
Proof. split; reflexivity. Qed.


(** * Further properties of the custom fields module *)

Lemma for_of_app {W A} (xs ys : list A) (body : A → Async W unit) :
  ∀ w, for_of (xs ++ ys) body w =
       match for_of xs body w with
       | (inr _, w') => for_of ys body w'
       | (inl e, w') => (inl e, w')
       end.
Proof.
  induction xs as [|x xs IH]; intros w; [done|].
  rewrite <- app_comm_cons, !for_of_cons.
  destruct (body x w) as [[e|[]] w1]; [done|]. apply IH.
Qed.

Lemma get_failed_names (fieldId : string) (cause : Thrown) :
  names_field fieldId (Described (CustomFields.get_failed fieldId) cause) = true.
Proof.
  unfold names_field, CustomFields.get_failed. cbn [messages existsb].
  by rewrite includes_append.
Qed.

Section BatchOnAnyCore.
Context {W : Type}.
Variable this : TaskServiceCustomFields W.

(** [setCustomFieldValues] on an empty list calls nothing but the log and
    returns [true]. *)
Theorem setCustomFieldValues_empty (taskId : string) (w : W) :
  CustomFields.setCustomFieldValues this taskId [] w =
  (inr true,
   logOperation (core this) "setCustomFieldValues"
     (JObject [("taskId", JString taskId); ("customFields", JArray [])]) w).
Proof. reflexivity. Qed.

Lemma batch_loop_thrown (taskId : string) (fields : list CustomFieldValue) :
  ∀ w : W,
    match fst (for_of fields
                 (λ field, CustomFields.setCustomFieldValue this taskId
                             (id field) (value field) ;; mret tt) w) with
    | inr _ => True
    | inl thrown =>
        ∃ field e, field ∈ fields
                   ∧ thrown = handleError (core this) e
                                (CustomFields.set_failed (id field))
    end.
Proof.
  induction fields as [|field rest IH]; intros w; [done|].
  rewrite for_of_cons.
  pose proof (setCustomFieldValue_true_or_wrapped this taskId
                (id field) (value field) w) as Hone.
  run.
  destruct (CustomFields.setCustomFieldValue this taskId _ _ w)
    as [[thrown|b] w1]; cbn [fst] in *.
  - destruct Hone as [e ->]. exists field, e. split; [left | done].
  - specialize (IH w1). destruct (for_of rest _ w1) as [[thrown|[]] w2];
      cbn [fst] in *; [|done].
    destruct IH as (f & e & Hin & ->). exists f, e. split; [by right | done].
Qed.

(** On any core, [setCustomFieldValues] returns [true] or throws what
    [handleError] makes, with the message of the batch, of the error
    [setCustomFieldValue] threw for one field of the list; it never
    returns [false]. *)
Theorem setCustomFieldValues_true_or_wrapped (taskId : string)
    (fields : list CustomFieldValue) (w : W) :
  match fst (CustomFields.setCustomFieldValues this taskId fields w) with
  | inr b => b = true
  | inl thrown =>
      ∃ field e,
        field ∈ fields
        ∧ thrown =
          handleError (core this)
            (handleError (core this) e (CustomFields.set_failed (id field)))
            "Failed to set custom field values"
  end.
Proof.
  unfold CustomFields.setCustomFieldValues. run.
  pose proof (batch_loop_thrown taskId fields
                (logOperation (core this) "setCustomFieldValues"
                   (JObject [("taskId", JString taskId);
                             ("customFields",
                              JArray (CustomFields.field_object <$> fields))]) w))
    as Hloop.
  destruct (for_of fields _ _) as [[thrown|[]] w1]; cbn [fst] in *; [|done].
  destruct Hloop as (f & e & Hin & ->). by exists f, e.
Qed.

(** When [getTask] fails, [getCustomFieldValue] throws the failure handled
    twice: with the message of [getCustomFieldValues], then with the message
    that names the field. *)
Theorem getCustomFieldValue_task_error (taskId fieldId : string) (w w' : W)
    (e : Thrown) :
  getTask (core this) taskId
    (logOperation (core this) "getCustomFieldValues"
       (JObject [("taskId", JString taskId)])
       (logOperation (core this) "getCustomFieldValue"
          (JObject [("taskId", JString taskId); ("fieldId", JString fieldId)])
          w)) = (inl e, w') →
  CustomFields.getCustomFieldValue this taskId fieldId w =
  (inl (handleError (core this)
          (handleError (core this) e "Failed to get custom field values")
          (CustomFields.get_failed fieldId)), w').
Proof.
  intros Hget.
  unfold CustomFields.getCustomFieldValue, CustomFields.getCustomFieldValues.
  run. by rewrite Hget.
Qed.

End BatchOnAnyCore.

(** Witness: task "t9" is not in the demo workspace. *)
Lemma getCustomFieldValue_task_error_witness :
  fst (CustomFields.getCustomFieldValue Core.spec_fields "t9" "a"
         (Mock.fresh Mock.demo))
  = inl (Described (CustomFields.get_failed "a")
           (Described "Failed to get custom field values"
              (NotFoundError "Task not found"))).
Proof.
  exact (f_equal fst
           (getCustomFieldValue_task_error Core.spec_fields "t9" "a"
              (Mock.fresh Mock.demo) _ (NotFoundError "Task not found")
              eq_refl)).
Defined.

(** Witness: the demo workspace accepts fields "a" and "b" of task "t1". *)
Lemma setCustomFieldValues_all_accepted_witness :
  let run := CustomFields.setCustomFieldValues Core.spec_fields "t1"
               Mock.accepted_batch (Mock.fresh Mock.demo) in
  fst run = inr true
  ∧ requests (snd run) =
    [HttpPost "/task/t1/field/a" (JObject [("value", JNumber 1)]);
     HttpPost "/task/t1/field/b" (JObject [("value", JNumber 3)])]
  ∧ server (snd run) =
    Mock.change "t1" (Mock.set_field "b" (JNumber 3))
      (Mock.change "t1" (Mock.set_field "a" (JNumber 1)) Mock.demo).
Proof.
  apply (setCustomFieldValues_all_accepted "t1" Mock.accepted_batch
           (Mock.fresh Mock.demo)); reflexivity.
Defined.

Section BatchTraffic.
Context {Server : Type} `{ClickUp Server}.

(** [setCustomFieldValues] on the modelled core, in terms of its loop. *)
Lemma setCustomFieldValues_run (taskId : string)
    (fields : list CustomFieldValue) (w : World Server) :
  CustomFields.setCustomFieldValues Core.spec_fields taskId fields w =
  match for_of fields
          (λ field, CustomFields.setCustomFieldValue Core.spec_fields taskId
                      (id field) (value field) ;; mret tt)
          {| server := server w; requests := requests w;
             oplog := oplog w ++ [logged_batch taskId fields] |} with
  | (inr _, w') => (inr true, w')
  | (inl e, w') => (inl (Described "Failed to set custom field values" e), w')
  end.
Proof.
  unfold CustomFields.setCustomFieldValues. run.
  change (logOperation (core Core.spec_fields)) with (@Core.log Server).
  unfold Core.log.
  by destruct (for_of _ _ _) as [[e|[]] w'].
Qed.

(** The loop posts the first [n] fields of the list, for some [n], logs
    one entry for each of them, and throws only for the last one posted. *)
Lemma batch_loop_progress (taskId : string) (fields : list CustomFieldValue) :
  ∀ w : World Server,
    let run :=
      for_of fields
        (λ field, CustomFields.setCustomFieldValue Core.spec_fields taskId
                    (id field) (value field) ;; mret tt) w in
    ∃ n, n ≤ length fields
         ∧ requests (snd run) =
           requests w ++ (field_request taskId <$> take n fields)
         ∧ oplog (snd run) =
           oplog w ++ (logged_field taskId <$> take n fields)
         ∧ match fst run with
           | inr _ => n = length fields
           | inl thrown =>
               ∃ field e, fields !! pred n = Some field ∧ 0 < n
                          ∧ thrown =
                            Described (CustomFields.set_failed (id field)) e
           end.
Proof.
  induction fields as [|field rest IH]; intros w; cbv zeta.
  - exists 0. cbn. by rewrite !app_nil_r.
  - rewrite for_of_cons, batch_turn.
    destruct (post _ _ (server w)) as [[e|answer] s1]; cbn [fst snd].
    + exists 1. cbn. repeat split; [lia|]. exists field, e. repeat split. lia.
    + destruct (IH {| server := s1;
                      requests := requests w ++ [field_request taskId field];
                      oplog := oplog w ++
                        [logged_set taskId (id field) (value field)] |})
        as (n & Hn & Hreq & Hlog & Hout).
      exists (S n). cbn [length take fmap list_fmap].
      rewrite Hreq, Hlog. cbn [requests oplog].
      rewrite <- !app_assoc. repeat split; [lia|].
      destruct (fst (for_of rest _ _)) as [thrown|[]]; [|lia].
      destruct Hout as (f & e & Hf & Hpos & ->).
      exists f, e. repeat split; [|lia].
      destruct n; [lia|]. exact Hf.
Qed.

(** Whatever ClickUp answers, [setCustomFieldValues] posts the first [n]
    fields of the list, in the order of the list and each once, and
    nothing else; it logs itself and then one entry for each field posted;
    it returns [true] only when the whole list was posted, and when it
    throws, the error names the last field posted. *)
Theorem setCustomFieldValues_posts_a_prefix (taskId : string)
    (fields : list CustomFieldValue) (w : World Server) :
  let run := CustomFields.setCustomFieldValues Core.spec_fields taskId fields w in
  ∃ n, n ≤ length fields
       ∧ issued w run = field_request taskId <$> take n fields
       ∧ oplog (snd run) =
         oplog w ++ logged_batch taskId fields
                 :: (logged_field taskId <$> take n fields)
       ∧ match fst run with
         | inr b => b = true ∧ n = length fields
         | inl thrown =>
             ∃ field, fields !! pred n = Some field ∧ 0 < n
                      ∧ names_field (id field) thrown = true
         end.
Proof.
  cbv zeta. rewrite setCustomFieldValues_run.
  destruct (batch_loop_progress taskId fields
              {| server := server w; requests := requests w;
                 oplog := oplog w ++ [logged_batch taskId fields] |})
    as (n & Hn & Hreq & Hlog & Hout).
  exists n. destruct (for_of fields _ _) as [[thrown|[]] w'];
    cbn [fst snd requests oplog] in *;
    rewrite (issued_after w _ (field_request taskId <$> take n fields))
      by exact Hreq;
    rewrite Hlog, <- app_assoc; repeat split; try done.
  destruct Hout as (f & e & Hf & Hpos & ->). exists f.
  repeat split; try done.
  apply names_field_described, set_failed_names.
Qed.

(** The loop does not read the log: from two worlds with the same
    workspace and requests it gives the same outcome and leaves the same
    workspace and requests. *)
Lemma batch_loop_same_traffic (taskId : string)
    (fields : list CustomFieldValue) :
  ∀ w1 w2 : World Server,
    same_traffic w1 w2 →
    let body := λ field, CustomFields.setCustomFieldValue Core.spec_fields
                           taskId (id field) (value field) ;; mret tt in
    fst (for_of fields body w1) = fst (for_of fields body w2)
    ∧ same_traffic (snd (for_of fields body w1)) (snd (for_of fields body w2)).
Proof.
  induction fields as [|field rest IH]; intros w1 w2 [Hs Hr]; cbv zeta.
  - by split.
  - rewrite !for_of_cons, !batch_turn, <- Hs, <- Hr.
    destruct (post _ _ (server w1)) as [[e|answer] s1]; cbn [fst snd].
    + by split.
    + apply IH. by split.
Qed.

(** A batch made of two lists behaves, for the outcome, the workspace and
    the requests, like the batch of the first list followed, when that one
    returned, by the batch of the second; when the first list fails, the
    fields after it change nothing. *)
Theorem setCustomFieldValues_app (taskId : string)
    (first second : list CustomFieldValue) (w : World Server) :
  let whole := CustomFields.setCustomFieldValues Core.spec_fields taskId
                 (first ++ second) w in
  let head := CustomFields.setCustomFieldValues Core.spec_fields taskId first w in
  match fst head with
  | inr _ =>
      let tail := CustomFields.setCustomFieldValues Core.spec_fields taskId
                    second (snd head) in
      fst whole = fst tail ∧ same_traffic (snd whole) (snd tail)
  | inl e => fst whole = inl e ∧ same_traffic (snd whole) (snd head)
  end.
Proof.
  cbv zeta. rewrite !setCustomFieldValues_run, for_of_app.
  destruct (batch_loop_same_traffic taskId first
              {| server := server w; requests := requests w;
                 oplog := oplog w ++ [logged_batch taskId (first ++ second)] |}
              {| server := server w; requests := requests w;
                 oplog := oplog w ++ [logged_batch taskId first] |})
    as [Hout Hsame]; [by split|].
  cbv zeta in Hout, Hsame.
  destruct (for_of first _ {| oplog := oplog w ++
                                [logged_batch taskId (first ++ second)] |})
    as [[e|[]] wa];
    destruct (for_of first _ {| oplog := oplog w ++
                                  [logged_batch taskId first] |})
    as [[e'|[]] wb]; cbn [fst snd] in *; try done.
  - injection Hout as <-. by split.
  - destruct Hsame as [Hs Hr].
    destruct (batch_loop_same_traffic taskId second wa
                {| server := server wb; requests := requests wb;
                   oplog := oplog wb ++ [logged_batch taskId second] |})
      as [Hout2 Hsame2]; [by split|].
    cbv zeta in Hout2, Hsame2.
    destruct (for_of second _ wa) as [[e2|[]] wc];
      destruct (for_of second _ {| oplog := oplog wb ++ _ |})
      as [[e2'|[]] wd]; cbn [fst snd] in *; try done.
    injection Hout2 as <-. by split.
Qed.

End BatchTraffic.

(** * Reading custom fields *)

Section ReadsOverClickUp.
Context {Server : Type} `{ClickUp Server}.

(** [getCustomFieldValues] on the modelled core, computed. *)
Lemma getCustomFieldValues_run (taskId : string) (w : World Server) :
  CustomFields.getCustomFieldValues Core.spec_fields taskId w =
  (match fst (get_task taskId (server w)) with
   | inr task => inr (or_empty (custom_fields task))
   | inl e => inl (Described "Failed to get custom field values" e)
   end,
   {| server := snd (get_task taskId (server w));
      requests := requests w ++ [GetTaskById taskId];
      oplog := oplog w ++
        [("getCustomFieldValues", JObject [("taskId", JString taskId)])] |}).
Proof.
  unfold CustomFields.getCustomFieldValues. run.
  unfold Core.spec_fields, Core.spec_core, Core.adapter, Core.log. simpl.
  by destruct (get_task taskId (server w)) as [[e|task] s].
Qed.

(** [getCustomFieldValue] on the modelled core, computed. *)
Lemma getCustomFieldValue_spec_run (taskId fieldId : string) (w : World Server) :
  CustomFields.getCustomFieldValue Core.spec_fields taskId fieldId w =
  (match fst (get_task taskId (server w)) with
   | inr task =>
       if js_in fieldId (or_empty (custom_fields task))
       then inr (js_get (or_empty (custom_fields task)) fieldId)
       else inl (Described (CustomFields.get_failed fieldId)
                   (Described (CustomFields.not_found fieldId)
                      (JsError (CustomFields.not_found fieldId))))
   | inl e =>
       inl (Described (CustomFields.get_failed fieldId)
              (Described "Failed to get custom field values" e))
   end,
   {| server := snd (get_task taskId (server w));
      requests := requests w ++ [GetTaskById taskId];
      oplog := (oplog w ++
                  [("getCustomFieldValue",
                    JObject [("taskId", JString taskId);
                             ("fieldId", JString fieldId)])]) ++
        [("getCustomFieldValues", JObject [("taskId", JString taskId)])] |}).
Proof.
  unfold CustomFields.getCustomFieldValue. run.
  rewrite getCustomFieldValues_run.
  change (logOperation (core Core.spec_fields)) with (@Core.log Server).
  cbn [Core.log server requests oplog handleError core Core.spec_fields
       Core.spec_core].
  destruct (fst (get_task taskId (server w))) as [e|task]; [done|].
  by destruct (js_in fieldId _).
Qed.

(** [getCustomFieldValues] is one read: whatever ClickUp answers, the only
    request is the get-by-id call for the task; the result is the mapping
    of the task, empty when it has none, and a failure of the call is
    thrown wrapped in the message of the operation. *)
Theorem getCustomFieldValues_single_get (taskId : string) (w : World Server) :
  let run := CustomFields.getCustomFieldValues Core.spec_fields taskId w in
  issued w run = [GetTaskById taskId]
  ∧ server (snd run) = snd (get_task taskId (server w))
  ∧ fst run =
    match fst (get_task taskId (server w)) with
    | inr task => inr match custom_fields task with
                      | Some mapping => mapping
                      | None => ∅
                      end
    | inl e => inl (Described "Failed to get custom field values" e)
    end.
Proof.
  cbv zeta. rewrite getCustomFieldValues_run. cbn [fst snd server].
  by rewrite (issued_after w _ [GetTaskById taskId]).
Qed.

(** [getCustomFieldValue] is one read too: the only request is the
    get-by-id call for the task, and every error it throws, for a missing
    field as for a failed call, names the field asked for. *)
Theorem getCustomFieldValue_single_get (taskId fieldId : string)
    (w : World Server) :
  let run := CustomFields.getCustomFieldValue Core.spec_fields taskId fieldId w in
  issued w run = [GetTaskById taskId]
  ∧ server (snd run) = snd (get_task taskId (server w))
  ∧ match fst run with
    | inr _ => True
    | inl thrown => names_field fieldId thrown = true
    end.
Proof.
  cbv zeta. rewrite getCustomFieldValue_spec_run. cbn [fst snd server].
  rewrite (issued_after w _ [GetTaskById taskId]) by done.
  repeat split.
  destruct (fst (get_task taskId (server w))) as [e|task];
    [apply get_failed_names|].
  destruct (js_in fieldId _); [done | apply get_failed_names].
Qed.

(** The single read agrees with the full read: for a key of the mapping
    [getCustomFieldValues] returns, [getCustomFieldValue] returns the value
    stored under that key, whatever the key is. *)
Theorem getCustomFieldValue_agrees (taskId fieldId : string)
    (w : World Server) (mapping : gmap string JsValue) (v : JsValue) :
  fst (CustomFields.getCustomFieldValues Core.spec_fields taskId w)
  = inr mapping →
  mapping !! fieldId = Some v →
  fst (CustomFields.getCustomFieldValue Core.spec_fields taskId fieldId w)
  = inr v.
Proof.
  rewrite getCustomFieldValues_run, getCustomFieldValue_spec_run. cbn [fst].
  destruct (fst (get_task taskId (server w))) as [e|task]; [done|].
  intros [= ->] Hkey. unfold js_in, js_get. by rewrite Hkey.
Qed.

(** [getCustomFieldValue] returns [undefined] only when [undefined] is what
    the mapping stores under the key: for a key that is missing it throws
    or, for the name of an inherited property, returns that property. *)
Theorem getCustomFieldValue_not_undefined (taskId fieldId : string)
    (w : World Server) (mapping : gmap string JsValue) :
  fst (CustomFields.getCustomFieldValues Core.spec_fields taskId w)
  = inr mapping →
  mapping !! fieldId ≠ Some JUndefined →
  fst (CustomFields.getCustomFieldValue Core.spec_fields taskId fieldId w)
  ≠ inr JUndefined.
Proof.
  rewrite getCustomFieldValues_run, getCustomFieldValue_spec_run. cbn [fst].
  destruct (fst (get_task taskId (server w))) as [e|task]; [done|].
  intros [= ->] Hkey. unfold js_in, js_get.
  destruct (mapping !! fieldId) as [v|].
  - intros [= ->]. by apply Hkey.
  - by destruct (inherited fieldId).
Qed.

Lemma append_assoc (a b c : string) : (a +:+ b) +:+ c = a +:+ b +:+ c.
Proof.
  induction a as [|ch a IH]; [done|].
  by rewrite !append_char, IH.
Qed.

(** Task and field IDs are put in the path as they are. A slash in one of
    them moves the border between the two: the calls for task
    [t/field/x] and field [f] and for task [t] and field [x/field/f]
    post the same request, and ClickUp answers both alike. *)
Theorem setCustomFieldValue_ids_not_escaped (taskId middle fieldId : string)
    (v : JsValue) (w : World Server) :
  let one := CustomFields.setCustomFieldValue Core.spec_fields
               (taskId +:+ "/field/" +:+ middle) fieldId v w in
  let other := CustomFields.setCustomFieldValue Core.spec_fields
                 taskId (middle +:+ "/field/" +:+ fieldId) v w in
  issued w one = issued w other
  ∧ server (snd one) = server (snd other)
  ∧ (fst one = inr true ↔ fst other = inr true).
Proof.
  cbv zeta. rewrite !setCustomFieldValue_run. cbv zeta.
  assert (CustomFields.field_url (taskId +:+ "/field/" +:+ middle) fieldId =
          CustomFields.field_url taskId (middle +:+ "/field/" +:+ fieldId))
    as ->.
  { unfold CustomFields.field_url. by rewrite !append_assoc. }
  cbn [fst snd server]. unfold issued. cbn [snd requests].
  repeat split; by destruct (fst (post _ _ (server w))).
Qed.

End ReadsOverClickUp.

(** Witness: task "t1" of the demo workspace once field "a" is set. *)
Lemma getCustomFieldValue_agrees_witness :
  let w := snd (CustomFields.setCustomFieldValue Core.spec_fields "t1" "a"
                  (JNumber 1) (Mock.fresh Mock.demo)) in
  fst (CustomFields.getCustomFieldValue Core.spec_fields "t1" "a" w)
  = inr (JNumber 1).
Proof.
  apply (getCustomFieldValue_agrees "t1" "a" _ {[ "a" := JNumber 1 ]});
    reflexivity.
Defined.

(** Witness: task "t1" of the demo workspace has no field "nonexistent". *)
Lemma getCustomFieldValue_not_undefined_witness :
  fst (CustomFields.getCustomFieldValue Core.spec_fields "t1" "nonexistent"
         (Mock.fresh Mock.demo)) ≠ inr JUndefined.
Proof.
  apply (getCustomFieldValue_not_undefined "t1" "nonexistent"
           (Mock.fresh Mock.demo) ∅); [reflexivity | discriminate].
Defined.

(** * What [main] writes *)

Section Console.
Context {Env : Type}.
Variable boot : Env → Outcome unit * Env.

(** [main] announces the bootstrap, then writes either the line of
    success on the standard output, or the banner and the error on the
    standard error; the line of success is never written after a failure. *)
Theorem main_console (p : Process Env) :
  console (snd (Main.main boot p)) =
  console p ++
  StdOut "--> [DEBUG] Attempting to bootstrap the server..." ::
  match fst (boot (env p)) with
  | inr _ =>
      [StdOut "--> [DEBUG] Bootstrap completed successfully. The server should be running."]
  | inl e =>
      [StdErr "!!! A FATAL ERROR OCCURRED DURING BOOTSTRAP !!!"; StdErrValue e]
  end.
Proof.
  unfold Main.main, Main.bootstrap, Main.console_write, Main.process_exit.
  run. cbn [env bootstraps console exited].
  destruct (boot (env p)) as [[e|[]] e']; cbn [fst snd console];
    by rewrite <- !app_assoc.
Qed.

End Console.
